(** * The in-page terminal shell (assets/js/terminal.js)

    A shallow embedding of the command interpreter, the navigation
    routine, the input-line key handler and the Konami key watcher,
    followed by the properties of the shell.

    Strings of the script are JavaScript strings.  Typed text is modelled
    as a sequence of code units below 256 (one [ascii] per code unit);
    [toLowerCase] and [trim] are given for exactly that range.  String
    constants are copied from the script byte for byte. *)

From Stdlib Require Import String Ascii List ZArith NArith Lia Bool.
Import ListNotations.
Local Open Scope string_scope.
Local Open Scope list_scope.

Infix "+:+" := String.append (at level 60, right associativity).

(** ** String primitives of the language used by the script *)

Module JS.

Definition code (c : ascii) : N := N_of_ascii c.

(** White space removed by [String.prototype.trim]: TAB, LF, VT, FF, CR,
    SPACE and NO-BREAK SPACE are the ones below 256. *)
Definition isWhiteSpace (c : ascii) : bool :=
  let n := code c in
  (((9 <=? n) && (n <=? 13)) || (n =? 32) || (n =? 160))%N.

(** [toLowerCase] on one code unit: A-Z, and the Latin-1 capitals
    U+00C0-U+00DE without the multiplication sign U+00D7. *)
Definition lowerChar (c : ascii) : ascii :=
  let n := code c in
  if (((65 <=? n) && (n <=? 90))
      || ((192 <=? n) && (n <=? 222) && negb (n =? 215)))%N
  then ascii_of_N (n + 32) else c.

Fixpoint toLowerCase (s : string) : string :=
  match s with
  | EmptyString => EmptyString
  | String c r => String (lowerChar c) (toLowerCase r)
  end.

Fixpoint trimStart (s : string) : string :=
  match s with
  | EmptyString => EmptyString
  | String c r => if isWhiteSpace c then trimStart r else s
  end.

Fixpoint trimEnd (s : string) : string :=
  match s with
  | EmptyString => EmptyString
  | String c r =>
      match trimEnd r with
      | EmptyString => if isWhiteSpace c then EmptyString else String c EmptyString
      | r' => String c r'
      end
  end.

Definition trim (s : string) : string := trimEnd (trimStart s).

(** [s.split(sep)] for a one-character separator: every occurrence of
    the separator ends a piece, so the result is never empty and two
    adjacent separators enclose an empty piece. *)
Fixpoint split (sep : ascii) (s : string) : list string :=
  match s with
  | EmptyString => [EmptyString]
  | String c r =>
      if Ascii.eqb c sep then EmptyString :: split sep r
      else match split sep r with
           | [] => [String c EmptyString]
           | h :: t => String c h :: t
           end
  end.

(** [a.join(sep)] *)
Fixpoint join (sep : string) (a : list string) : string :=
  match a with
  | [] => ""
  | x :: r => match r with
              | [] => x
              | _ :: _ => x +:+ sep +:+ join sep r
              end
  end.

(** [hay.includes(needle)] on strings *)
Fixpoint includes (needle hay : string) : bool :=
  match hay with
  | EmptyString => String.prefix needle EmptyString
  | String _ r => String.prefix needle hay || includes needle r
  end.

(** [a.includes(x)] on an array of strings, where [x] may be [undefined] *)
Definition arrayIncludes (a : list string) (x : option string) : bool :=
  match x with
  | Some s => existsb (String.eqb s) a
  | None => false
  end.

(** A value spliced into a template literal: [undefined] prints as such. *)
Definition interpolate (x : option string) : string :=
  match x with
  | Some s => s
  | None => "undefined"
  end.

Definition newline : string := String (ascii_of_nat 10) EmptyString.

Definition lines (l : list string) : string := join newline l.

End JS.

(** ** The part of the document the script reads and writes *)

Module Dom.

(** An element.  [inSections] and [inNavLinks] say whether the element is
    in [elements.sections] (it matched [.terminal-section]) and in
    [elements.navLinks] (it matched [.nav-link]); both node lists are
    taken once, when the script starts, and never change.  An element
    without an id has [node_id = ""]. *)
Record node := mkNode {
  node_id : string;
  classList : list string;
  href : option string;
  inSections : bool;
  inNavLinks : bool
}.

Definition contains (cls : string) (l : list string) : bool :=
  existsb (String.eqb cls) l.

Definition remove (cls : string) (l : list string) : list string :=
  filter (fun c => negb (String.eqb c cls)) l.

Definition add (cls : string) (l : list string) : list string :=
  if contains cls l then l else l ++ [cls].

Definition setClassList (l : list string) (n : node) : node :=
  mkNode (node_id n) l (href n) (inSections n) (inNavLinks n).

Definition classRemove (cls : string) (n : node) : node :=
  setClassList (remove cls (classList n)) n.

Definition classAdd (cls : string) (n : node) : node :=
  setClassList (add cls (classList n)) n.

Definition isActive (n : node) : bool := contains "active" (classList n).

Definition hasId (id : string) (n : node) : bool :=
  negb (id =? "") && (node_id n =? id).

(** [document.getElementById(id)]: the first element, in document order,
    that carries the id. *)
Definition getElementById (id : string) (doc : list node) : option node :=
  find (hasId id) doc.

(** A method call on the element [getElementById] returned changes that
    element in place: the first one that carries the id. *)
Fixpoint updateFirst (p : node -> bool) (f : node -> node) (doc : list node)
  : list node :=
  match doc with
  | [] => []
  | n :: r => if p n then f n :: r else n :: updateFirst p f r
  end.

(** A child of the [#output] container. *)
Record line := mkLine {
  className : list string;
  cssText : string;
  textContent : string
}.

Definition isCommandOutput (l : line) : bool :=
  contains "terminal-output-line" (className l).

End Dom.

Export Dom.

(** ** The terminal *)

Module Terminal.

(** The [state] object. *)
Record State := mkState {
  currentSection : string;
  commandHistory : list string;
  historyIndex : Z;
  typingInProgress : bool
}.

Definition initialState : State := mkState "home" [] (-1) false.

(** What a pending [setTimeout] callback will do. *)
Inductive callback :=
| CallDisplayOutput (msg : string)
| CallKonamiEnd.

(** Everything the shell reads or writes: the [state] object, the
    elements of the document, the children of [#output] ([None] when the
    page has no such container), the value of the input field, the
    [display] style of the matrix canvas ([None] when there is no canvas),
    the custom properties set on the root element, the [animation] style
    of the body, the style sheets the script appended to the head, the
    pending timers with their delay in milliseconds, and the progress
    cursor of the Konami watcher. *)
Record page := mkPage {
  state : State;
  document : list node;
  output : option (list line);
  terminalInput : string;
  matrixCanvas : option string;
  rootStyle : list (string * string);
  bodyAnimation : string;
  headStyles : list string;
  timers : list (Z * callback);
  konamiIndex : nat
}.

Definition set_state (s : State) (p : page) : page :=
  mkPage s (document p) (output p) (terminalInput p) (matrixCanvas p)
         (rootStyle p) (bodyAnimation p) (headStyles p) (timers p) (konamiIndex p).

Definition set_document (d : list node) (p : page) : page :=
  mkPage (state p) d (output p) (terminalInput p) (matrixCanvas p)
         (rootStyle p) (bodyAnimation p) (headStyles p) (timers p) (konamiIndex p).

Definition set_output (o : option (list line)) (p : page) : page :=
  mkPage (state p) (document p) o (terminalInput p) (matrixCanvas p)
         (rootStyle p) (bodyAnimation p) (headStyles p) (timers p) (konamiIndex p).

Definition set_terminalInput (v : string) (p : page) : page :=
  mkPage (state p) (document p) (output p) v (matrixCanvas p)
         (rootStyle p) (bodyAnimation p) (headStyles p) (timers p) (konamiIndex p).

Definition set_matrixCanvas (c : option string) (p : page) : page :=
  mkPage (state p) (document p) (output p) (terminalInput p) c
         (rootStyle p) (bodyAnimation p) (headStyles p) (timers p) (konamiIndex p).

Definition set_rootStyle (r : list (string * string)) (p : page) : page :=
  mkPage (state p) (document p) (output p) (terminalInput p) (matrixCanvas p)
         r (bodyAnimation p) (headStyles p) (timers p) (konamiIndex p).

Definition set_bodyAnimation (a : string) (p : page) : page :=
  mkPage (state p) (document p) (output p) (terminalInput p) (matrixCanvas p)
         (rootStyle p) a (headStyles p) (timers p) (konamiIndex p).

Definition set_headStyles (h : list string) (p : page) : page :=
  mkPage (state p) (document p) (output p) (terminalInput p) (matrixCanvas p)
         (rootStyle p) (bodyAnimation p) h (timers p) (konamiIndex p).

Definition setTimeout (cb : callback) (delay : Z) (p : page) : page :=
  mkPage (state p) (document p) (output p) (terminalInput p) (matrixCanvas p)
         (rootStyle p) (bodyAnimation p) (headStyles p)
         (timers p ++ [(delay, cb)]) (konamiIndex p).

Definition set_konamiIndex (i : nat) (p : page) : page :=
  mkPage (state p) (document p) (output p) (terminalInput p) (matrixCanvas p)
         (rootStyle p) (bodyAnimation p) (headStyles p) (timers p) i.

Definition set_currentSection (id : string) (p : page) : page :=
  set_state (mkState id (commandHistory (state p)) (historyIndex (state p))
                     (typingInProgress (state p))) p.

Definition set_historyIndex (i : Z) (p : page) : page :=
  set_state (mkState (currentSection (state p)) (commandHistory (state p)) i
                     (typingInProgress (state p))) p.

(** [state.commandHistory.push(x)] *)
Definition push_commandHistory (x : string) (p : page) : page :=
  set_state (mkState (currentSection (state p)) (commandHistory (state p) ++ [x])
                     (historyIndex (state p)) (typingInProgress (state p))) p.

(** The page as the script finds it when it starts: the state object is
    fresh and the Konami cursor is zero; the rest is what the document
    holds. *)
Definition initialPage (doc : list node) (out : option (list line))
    (field : string) (canvas : option string) (style : list (string * string))
  : page :=
  mkPage initialState doc out field canvas style "" [] [] 0.

(** *** Navigation *)

(** The body of the optional sound hook is commented out. *)
Definition playSound (type : string) (p : page) : page := p.

Definition hideSection (n : node) : node :=
  if inSections n then classRemove "active" n else n.

Definition hrefIs (target : string) (n : node) : bool :=
  match href n with
  | Some h => h =? target
  | None => false
  end.

Definition updateNavLink (sectionId : string) (n : node) : node :=
  if inNavLinks n then
    let n' := classRemove "active" n in
    if hrefIs ("#" +:+ sectionId) n' then classAdd "active" n' else n'
  else n.

Definition navigateToSection (sectionId : string) (p : page) : page :=
  (* Hide all sections *)
  let p := set_document (map hideSection (document p)) p in
  (* Show target section *)
  match getElementById sectionId (document p) with
  | Some _ =>
      let p := set_document
                 (updateFirst (hasId sectionId) (classAdd "active") (document p)) p in
      let p := set_currentSection sectionId p in
      (* Update nav links *)
      let p := set_document (map (updateNavLink sectionId) (document p)) p in
      playSound "nav" p
  | None => p
  end.

(** *** Output *)

(** What a handler returns: a string, or (through the inherited
    [constructor] property, see [commandsGet]) the argument array. *)
Inductive value :=
| VString (s : string)
| VArray (a : list string).

(** Conversion of a value assigned to [textContent]. *)
Definition toText (v : value) : string :=
  match v with
  | VString s => s
  | VArray a => JS.join "," a
  end.

Definition outputStyle : string :=
  "color: var(--text-primary); margin: 0.5rem 0; font-family: var(--font-mono); white-space: pre-wrap; word-wrap: break-word;".

Definition displayOutput (text : value) (p : page) : page :=
  let outputPre := mkLine ["terminal-output-line"] outputStyle (toText text) in
  match output p with
  | Some children => set_output (Some (children ++ [outputPre])) p
  | None => p
  end.

(** *** Effects used by the commands *)

Definition toggleMatrixEffect (p : page) : page :=
  match matrixCanvas p with
  | Some display =>
      set_matrixCanvas (Some (if display =? "none" then "block" else "none")) p
  | None => p
  end.

Fixpoint setProperty (property val : string) (style : list (string * string))
  : list (string * string) :=
  match style with
  | [] => [(property, val)]
  | (k, v) :: r =>
      if k =? property then (k, val) :: r else (k, v) :: setProperty property val r
  end.

Definition themeDefault : list (string * string) :=
  [("--text-primary", "#00ff41"); ("--accent-cyan", "#00d9ff"); ("--bg-primary", "#0a0e27")].

Definition themeAmber : list (string * string) :=
  [("--text-primary", "#ffb000"); ("--accent-cyan", "#ff6b00"); ("--bg-primary", "#1a0f00")].

Definition themeIce : list (string * string) :=
  [("--text-primary", "#00ffff"); ("--accent-cyan", "#0080ff"); ("--bg-primary", "#000033")].

(** [Object.entries(themes[theme] || themes.default)] for a lower-case
    key.  [themes] is an object literal, so the keys [constructor] and
    [__proto__] find the inherited [Object] function and
    [Object.prototype]; both are truthy and have no enumerable entry. *)
Definition selectedThemeEntries (theme : string) : list (string * string) :=
  if theme =? "default" then themeDefault
  else if theme =? "amber" then themeAmber
  else if theme =? "ice" then themeIce
  else if (theme =? "constructor") || (theme =? "__proto__") then []
  else themeDefault.

Definition changeTheme (theme : string) (p : page) : page :=
  fold_left (fun p e => set_rootStyle (setProperty (fst e) (snd e) (rootStyle p)) p)
            (selectedThemeEntries theme) p.

Definition hackMessages : list string :=
  ["ACCESSING MAINFRAME..."; "BYPASSING FIREWALL..."; "INJECTING PAYLOAD...";
   "EXTRACTING DATA..."; "HACK COMPLETE! Just kidding :)"].

Fixpoint scheduleFrom (index : Z) (msgs : list string) (p : page) : page :=
  match msgs with
  | [] => p
  | msg :: r =>
      scheduleFrom (index + 1) r (setTimeout (CallDisplayOutput msg) (index * 1000) p)
  end.

Definition initiateHackingSequence (p : page) : page :=
  scheduleFrom 0 hackMessages p.

(** *** Terminal commands *)

Definition handler : Type := list string -> page -> value * page.

Definition helpText : string :=
  Eval vm_compute in
  JS.trim (JS.lines
    [""; "Available commands:";
     "  help     - Show this help message";
     "  ls       - List available sections";
     "  cd       - Navigate to section (e.g., cd about)";
     "  clear    - Clear terminal output (also: cls, Ctrl+L)";
     "  whoami   - Display user information";
     "  skills   - Show technical skills";
     "  contact  - Display contact information";
     "  matrix   - Toggle matrix effect";
     "  theme    - Change terminal theme";
     "  hack     - Initiate hacking sequence (easter egg)";
     "                "]).

Definition skillsText : string :=
  Eval vm_compute in
  JS.trim (JS.lines
    [""; "Languages: JavaScript, Python, TypeScript";
     "AI/ML: Claude, GPT, Custom LLM Orchestration";
     "Tools: React, Node.js, Docker, AWS";
     "Focus: Building dev tools that actually work";
     "                "]).

Definition contactText : string :=
  Eval vm_compute in
  JS.trim (JS.lines
    [""; "GitHub: https://github.com/kozhokaru";
     "LinkedIn: https://linkedin.com/in/levkoz";
     "                "]).

Definition sectionNames : list string :=
  ["home"; "about"; "projects"; "blog"; "contact"].

Definition help : handler := fun _ p => (VString helpText, p).

Definition ls : handler :=
  fun _ p => (VString "home/  about/  projects/  blog/  contact/", p).

Definition cd : handler := fun args p =>
  let section := nth_error args 0 in
  if JS.arrayIncludes sectionNames section then
    let p := navigateToSection (JS.interpolate section) p in
    (VString ("Navigating to " +:+ JS.interpolate section +:+ "..."), p)
  else
    (VString ("Error: " +:+ JS.interpolate section +:+ ": No such directory"), p).

(** Removal of the [.terminal-output-line] elements below [#output]; the
    Ctrl+L shortcut repeats it. *)
Definition removeCommandOutputs (p : page) : page :=
  match output p with
  | Some children =>
      set_output (Some (filter (fun l => negb (isCommandOutput l)) children)) p
  | None => p
  end.

Definition clear : handler := fun _ p =>
  (* Keep initial boot sequence output, only clear command outputs *)
  let p := removeCommandOutputs p in
  (VString "", p) (* Return empty string so no new line is added *).

Definition cls : handler := fun _ p => clear [] p.

Definition whoami : handler := fun _ p =>
  (VString "Lev Kozhokaru - Software Engineer | Dev Tools Creator | AI Integration Specialist", p).

Definition skills : handler := fun _ p => (VString skillsText, p).

Definition contact : handler := fun _ p => (VString contactText, p).

Definition matrix : handler := fun _ p =>
  let p := toggleMatrixEffect p in
  (VString "Matrix effect toggled", p).

(** [args[0] || 'default']: a missing or empty first argument is falsy. *)
Definition theme : handler := fun args p =>
  let theme := match nth_error args 0 with
               | Some a => if a =? "" then "default" else a
               | None => "default"
               end in
  let p := changeTheme theme p in
  (VString ("Theme changed to: " +:+ theme), p).

Definition hack : handler := fun _ p =>
  let p := initiateHackingSequence p in
  (VString "INITIATING HACK SEQUENCE...", p).

(** The own properties of the [commands] object literal: the Command
    Registry. *)
Definition commands (name : string) : option handler :=
  if name =? "help" then Some help
  else if name =? "ls" then Some ls
  else if name =? "cd" then Some cd
  else if name =? "clear" then Some clear
  else if name =? "cls" then Some cls
  else if name =? "whoami" then Some whoami
  else if name =? "skills" then Some skills
  else if name =? "contact" then Some contact
  else if name =? "matrix" then Some matrix
  else if name =? "theme" then Some theme
  else if name =? "hack" then Some hack
  else None.

(** What [commands[cmd]] evaluates to.  [commands] is an ordinary object,
    so a key that is not an own property is looked up on
    [Object.prototype].  [cmd] is always a result of [toLowerCase]; the
    only properties of [Object.prototype] whose name has no upper-case
    letter are [constructor] (the function [Object]) and the accessor
    [__proto__] (which yields [Object.prototype] itself).  [None] stands
    for [undefined]. *)
Inductive property :=
| OwnFunction (h : handler)
| ObjectConstructor
| ObjectPrototype.

Definition commandsGet (cmd : string) : option property :=
  match commands cmd with
  | Some h => Some (OwnFunction h)
  | None =>
      if cmd =? "constructor" then Some ObjectConstructor
      else if cmd =? "__proto__" then Some ObjectPrototype
      else None
  end.

Inductive error := TypeError (message : string).

(** How a call ends: with a value, or with an exception. *)
Inductive completion (A : Type) :=
| Normal (a : A) (p : page)
| Throw (e : error) (p : page).
Arguments Normal {A} a p.
Arguments Throw {A} e p.

(** The page an event handler leaves behind, however it ended. *)
Definition pageOf {A : Type} (c : completion A) : page :=
  match c with
  | Normal _ p => p
  | Throw _ p => p
  end.

Definition notFound (cmd : option string) : string :=
  "Command not found: " +:+ JS.interpolate cmd +:+ ". Type 'help' for available commands.".

(** [commands[cmd](args)] once [commands[cmd]] was found truthy: a command
    runs; [Object(args)] returns the array it is given; [Object.prototype]
    is not callable. *)
Definition call (f : property) (args : list string) (p : page) : completion value :=
  match f with
  | OwnFunction h => let (v, p) := h args p in Normal v p
  | ObjectConstructor => Normal (VArray args) p
  | ObjectPrototype => Throw (TypeError "commands[cmd] is not a function") p
  end.

Definition executeCommand (input : string) (p : page) : completion value :=
  match JS.split " " (JS.toLowerCase (JS.trim input)) with
  | cmd :: args =>
      match commandsGet cmd with
      | Some f => call f args p
      | None => Normal (VString (notFound (Some cmd))) p
      end
  | [] => Normal (VString (notFound None)) p
  end.

(** *** Terminal input handler *)

Record KeyboardEvent := mkKey {
  key : string;
  ctrlKey : bool;
  metaKey : bool;
  altKey : bool
}.

Definition plainKey (k : string) : KeyboardEvent := mkKey k false false false.

(** [state.commandHistory[state.historyIndex]] assigned to the value of
    the field; outside the array the element is [undefined]. *)
Definition historyEntry (p : page) : string :=
  let i := historyIndex (state p) in
  JS.interpolate
    (if (i <? 0)%Z then None else nth_error (commandHistory (state p)) (Z.to_nat i)).

Definition historyLength (p : page) : Z :=
  Z.of_nat (length (commandHistory (state p))).

Definition handleTerminalInput (e : KeyboardEvent) (p : page) : completion unit :=
  if key e =? "Enter" then
    let input := JS.trim (terminalInput p) in
    if input =? "" then Normal tt p
    else
      match executeCommand input p with
      | Normal out p =>
          let p := displayOutput out p in
          let p := push_commandHistory input p in
          let p := set_historyIndex (historyLength p) p in
          Normal tt (set_terminalInput "" p)
      | Throw err p => Throw err p
      end
  else if key e =? "ArrowUp" then
    if (historyIndex (state p) >? 0)%Z then
      let p := set_historyIndex (historyIndex (state p) - 1) p in
      Normal tt (set_terminalInput (historyEntry p) p)
    else Normal tt p
  else if key e =? "ArrowDown" then
    if (historyIndex (state p) <? historyLength p - 1)%Z then
      let p := set_historyIndex (historyIndex (state p) + 1) p in
      Normal tt (set_terminalInput (historyEntry p) p)
    else
      let p := set_historyIndex (historyLength p) p in
      Normal tt (set_terminalInput "" p)
  else Normal tt p.

(** *** Keyboard shortcuts *)

Definition keyboardShortcuts (e : KeyboardEvent) (p : page) : page :=
  (* ESC key to go home *)
  let p := if key e =? "Escape" then navigateToSection "home" p else p in
  (* Ctrl + L to clear terminal *)
  let p := if ctrlKey e && (key e =? "l") then removeCommandOutputs p else p in
  (* Number keys for quick navigation *)
  if negb (ctrlKey e) && negb (metaKey e) && negb (altKey e) then
    if key e =? "1" then navigateToSection "home" p
    else if key e =? "2" then navigateToSection "about" p
    else if key e =? "3" then navigateToSection "projects" p
    else if key e =? "4" then navigateToSection "blog" p
    else if key e =? "5" then navigateToSection "contact" p
    else p
  else p.

(** *** Konami code *)

Definition konamiCode : list string :=
  ["ArrowUp"; "ArrowUp"; "ArrowDown"; "ArrowDown"; "ArrowLeft"; "ArrowRight";
   "ArrowLeft"; "ArrowRight"; "b"; "a"].

Definition konamiMessage : string :=
  "ðŸŽ® KONAMI CODE ACTIVATED! You unlocked the secret mode!".

Definition rainbowStyle : string :=
  JS.lines
    [""; "            @keyframes rainbow {";
     "                0% { filter: hue-rotate(0deg); }";
     "                100% { filter: hue-rotate(360deg); }";
     "            }";
     "        "].

Definition activateKonamiCode (p : page) : page :=
  let p := displayOutput (VString konamiMessage) p in
  let p := set_bodyAnimation "rainbow 2s linear infinite" p in
  let p := set_headStyles (headStyles p ++ [rainbowStyle]) p in
  setTimeout CallKonamiEnd 10000 p.

(** The [keydown] listener of the document that watches for the code.
    Past the end of [konamiCode] the element is [undefined], which no key
    equals. *)
Definition konamiListener (e : KeyboardEvent) (p : page) : page :=
  match nth_error konamiCode (konamiIndex p) with
  | Some expected =>
      if key e =? expected then
        let p := set_konamiIndex (S (konamiIndex p)) p in
        if Nat.eqb (konamiIndex p) (length konamiCode) then
          let p := activateKonamiCode p in
          set_konamiIndex 0 p
        else p
      else set_konamiIndex 0 p
  | None => set_konamiIndex 0 p
  end.

(** *** Events *)

(** What can happen to the page: a key goes down in the input field (the
    handler of the field runs, then the listeners of the document, in the
    order they were added), a key goes down elsewhere, the user edits
    the field, or a navigation link, quick button or anchor for [target]
    is clicked. *)
Inductive event :=
| KeydownInput (e : KeyboardEvent)
| KeydownDocument (e : KeyboardEvent)
| Edit (text : string)
| Click (target : string).

Definition documentKeydown (e : KeyboardEvent) (p : page) : page :=
  keyboardShortcuts e (konamiListener e p).

Definition step (ev : event) (p : page) : page :=
  match ev with
  | KeydownInput e => documentKeydown e (pageOf (handleTerminalInput e p))
  | KeydownDocument e => documentKeydown e p
  | Edit text => set_terminalInput text p
  | Click target => navigateToSection target p
  end.

Definition run (evs : list event) (p : page) : page :=
  fold_left (fun p ev => step ev p) evs p.

(** Typing a command line and pressing Enter. *)
Definition enter (line : string) : list event :=
  [Edit line; KeydownInput (plainKey "Enter")].

End Terminal.

Import Terminal.

(** ** A sample page

    Five sections, the first of them active, with one navigation link
    each, and one boot line in [#output]. *)

Module Sample.

Definition section (id : string) (active : bool) : node :=
  mkNode id (if active then ["terminal-section"; "active"] else ["terminal-section"])
         None true false.

Definition link (id : string) (active : bool) : node :=
  mkNode "" (if active then ["nav-link"; "active"] else ["nav-link"])
         (Some ("#" +:+ id)) false true.

Definition doc : list node :=
  [link "home" true; link "about" false; link "projects" false;
   link "blog" false; link "contact" false;
   section "home" true; section "about" false; section "projects" false;
   section "blog" false; section "contact" false].

Definition bootLine : line := mkLine ["output-line"] "" "SYSTEM READY".

Definition page0 : page := initialPage doc (Some [bootLine]) "" (Some "") [].

End Sample.

(** ** Observations on a page *)

(** The sections that bear the active marker, in document order. *)
Definition activeSections (p : page) : list node :=
  filter (fun n => inSections n && isActive n) (document p).

(** The navigation links, in document order. *)
Definition navLinks (p : page) : list node :=
  filter inNavLinks (document p).

(** No element is both a section and a navigation link. *)
Definition linksApartFromSections (doc : list node) : bool :=
  forallb (fun n => negb (inNavLinks n && inSections n)) doc.

Definition LinksApart (doc : list node) : Prop :=
  forall n, In n doc -> inNavLinks n = true -> inSections n = false.

(** The document after a call of [navigateToSection] whose target
    exists. *)
Definition shown (id : string) (doc : list node) : list node :=
  map (updateNavLink id)
      (updateFirst (hasId id) (classAdd "active") (map hideSection doc)).

(** The lines of the transcript that did not come from [displayOutput]. *)
Definition bootLines (children : list line) : list line :=
  filter (fun l => negb (isCommandOutput l)) children.

(** The command history together with its cursor. *)
Definition history (p : page) : list string * Z :=
  (commandHistory (state p), historyIndex (state p)).

(** The cursor is still the fresh [-1] over an empty history, or it lies
    in the interval from [0] to the length of the history. *)
Definition cursorInRange (p : page) : Prop :=
  history p = ([], (-1)%Z)
  \/ (0 <= historyIndex (state p) <= historyLength p)%Z.

(** The element [displayOutput] builds for the empty string. *)
Definition blankOutputLine : line := mkLine ["terminal-output-line"] outputStyle "".

Definition arrowUp : event := KeydownInput (plainKey "ArrowUp").
Definition arrowDown : event := KeydownInput (plainKey "ArrowDown").

(** The Konami watcher run over a sequence of key events. *)
Definition feed (keys : list KeyboardEvent) (p : page) : page :=
  fold_left (fun p e => konamiListener e p) keys p.

(** Whether [k] is the key the watcher waits for. *)
Definition konamiExpects (p : page) (k : string) : bool :=
  match nth_error konamiCode (konamiIndex p) with
  | Some expected => k =? expected
  | None => false
  end.

(** ** The splitting as the specification words it *)

Module Spec.

(** "Split on whitespace into (command, arguments)": the words of the
    line are its maximal runs of characters that are not white space.
    [word] is the run read so far. *)
Fixpoint wordsFrom (word : string) (s : string) : list string :=
  match s with
  | EmptyString => if word =? "" then [] else [word]
  | String c r =>
      if JS.isWhiteSpace c then
        if word =? "" then wordsFrom "" r else word :: wordsFrom "" r
      else wordsFrom (word +:+ String c EmptyString) r
  end.

Definition splitOnWhitespace (s : string) : list string := wordsFrom "" s.

End Spec.

(** The dispatch contract read with the splitting of the specification:
    the line is lower-cased and cut at white space, and a command word
    found in the registry has its handler run on the argument words. *)
Definition dispatchesOnWhitespace : Prop :=
  forall (input : string) (p : page) (cmd : string) (args : list string) (h : handler),
    Spec.splitOnWhitespace (JS.toLowerCase input) = cmd :: args ->
    commands cmd = Some h ->
    executeCommand input p = (let (v, p') := h args p in Normal v p').

(** ** Further parts of the scripts *)

(** What [navigateToSection] does to the elements of the document. *)
Definition navigateDocument (id : string) (doc : list node) : list node :=
  match getElementById id (map hideSection doc) with
  | Some _ => shown id doc
  | None => map hideSection doc
  end.


(** The sample page after two and after three commands. *)
Definition afterTwo : page := run (enter "ls" ++ enter "help") Sample.page0.

Definition afterThree : page :=
  run (enter "ls" ++ enter "help" ++ enter "whoami") Sample.page0.

(** The same event [k] times in a row. *)
Definition presses (k : nat) (ev : event) (p : page) : page :=
  Nat.iter k (step ev) p.

(** The element is not both a navigation link and a section. *)
Definition apart (n : node) : bool := negb (inNavLinks n && inSections n).

(** The pieces of a line have no space in them. *)
Definition spaceless (s : string) : bool :=
  forallb (fun c => negb (Ascii.eqb c " ")) (list_ascii_of_string s).

(** Calls of [navigateToSection] one after the other, seen on the
    document. *)
Definition navigations (ids : list string) (doc : list node) : list node :=
  fold_left (fun d id => navigateDocument id d) ids doc.

(** The entries of a palette written to a style one after the other. *)
Definition applyEntries (entries : list (string * string))
    (style : list (string * string)) : list (string * string) :=
  fold_left (fun st e => setProperty (fst e) (snd e) st) entries style.

(** The timers [scheduleFrom] adds. *)
Fixpoint scheduled (index : Z) (msgs : list string) : list (Z * callback) :=
  match msgs with
  | [] => []
  | msg :: r => ((index * 1000)%Z, CallDisplayOutput msg) :: scheduled (index + 1) r
  end.

(** The transcript line [displayOutput] builds for a text. *)
Definition outputLine (text : string) : line :=
  mkLine ["terminal-output-line"] outputStyle text.

(** Every entry is a trimmed line that is not empty. *)
Definition trimmedEntries (h : list string) : bool :=
  forallb (fun x => (JS.trim x =? x) && negb (x =? "")) h.

(** The line has nothing but white space. *)
Definition blank (s : string) : bool :=
  forallb JS.isWhiteSpace (list_ascii_of_string s).

(** The click listeners of [setupEventListeners], [setupNavigation] and
    [setupQuickAccess]. *)
Module Links.

(** [href.substring(1)] *)
Definition substring1 (s : string) : string :=
  match s with
  | EmptyString => EmptyString
  | String _ r => r
  end.

(** A click on an element of [elements.navLinks]; [getAttribute] gives
    [null] when the link has no [href], and the method call on it
    throws. *)
Definition navLinkClick (hrefAttribute : option string) (p : page) : completion unit :=
  match hrefAttribute with
  | Some h => Normal tt (navigateToSection (substring1 h) p)
  | None => Throw (TypeError "link.getAttribute(...) is null") p
  end.

(** A click on an anchor that matched [a[href^="#"]]: it has an [href]. *)
Definition anchorClick (h : string) (p : page) : page :=
  let target := substring1 h in
  if target =? "" then p else navigateToSection target p.

(** A click on a quick access button with [data-action]. *)
Definition quickButtonClick (action : string) (p : page) : page :=
  navigateToSection action p.

(** A navigation link that is such an anchor has both listeners, which
    run in the order they were added. *)
Definition navAnchorClick (h : string) (p : page) : page :=
  anchorClick h (pageOf (navLinkClick (Some h) p)).

End Links.

(** The callbacks handed to [setTimeout], once they run. *)
Module Timers.

Definition set_timers (t : list (Z * callback)) (p : page) : page :=
  mkPage (state p) (document p) (output p) (terminalInput p) (matrixCanvas p)
         (rootStyle p) (bodyAnimation p) (headStyles p) t (konamiIndex p).

Fixpoint removeNth {A : Type} (i : nat) (l : list A) : list A :=
  match l with
  | [] => []
  | x :: r => match i with
              | O => r
              | S j => x :: removeNth j r
              end
  end.

(** [style.remove()]: the oldest style sheet of the easter egg still in
    the head is the one the first pending callback added. *)
Fixpoint removeFirst (x : string) (l : list string) : list string :=
  match l with
  | [] => []
  | y :: r => if y =? x then r else y :: removeFirst x r
  end.

Definition runCallback (cb : callback) (p : page) : page :=
  match cb with
  | CallDisplayOutput msg => displayOutput (VString msg) p
  | CallKonamiEnd =>
      let p := set_bodyAnimation "" p in
      set_headStyles (removeFirst rainbowStyle (headStyles p)) p
  end.

(** The browser runs the pending timer number [i] and forgets it. *)
Definition fire (i : nat) (p : page) : page :=
  match nth_error (timers p) i with
  | Some (_, cb) => runCallback cb (set_timers (removeNth i (timers p)) p)
  | None => p
  end.

End Timers.

(** The mobile menu: [setupMobileMenu] of the terminal script and the
    navigation toggle of the site script, which does the same for
    [.nav-toggle]. *)
Module Menu.

(** The class list of [.nav-menu] and the [aria-expanded] attribute of
    the toggle button ([None] while the attribute is absent). *)
Record menu := mkMenu {
  navMenu : list string;
  ariaExpanded : option string
}.

(** [classList.toggle(cls)] *)
Definition toggle (cls : string) (l : list string) : list string :=
  if contains cls l then remove cls l else add cls l.

(** A boolean given to [setAttribute] is stored as its string. *)
Definition ofBool (b : bool) : string := if b then "true" else "false".

(** Terminal script: click on [.menu-toggle]. *)
Definition menuToggleClick (m : menu) : menu :=
  let classes := toggle "active" (navMenu m) in
  let isOpen := contains "active" classes in
  mkMenu classes (Some (ofBool isOpen)).

(** Site script: click on [.nav-toggle]. *)
Definition navToggleClick (m : menu) : menu :=
  let isOpen := contains "active" (navMenu m) in
  mkMenu (toggle "active" (navMenu m)) (Some (ofBool (negb isOpen))).

(** The click listener of the document; [inToggle] and [inMenu] say
    whether the toggle button and the menu contain the click target. *)
Definition documentClick (inToggle inMenu : bool) (m : menu) : menu :=
  if negb inToggle && negb inMenu
  then mkMenu (remove "active" (navMenu m)) (Some "false")
  else m.

Inductive click :=
| OnToggle
| InMenu
| Outside.

(** One click: on the button both listeners run, the one of the button
    first. *)
Definition clicked (c : click) (m : menu) : menu :=
  match c with
  | OnToggle => documentClick true false (menuToggleClick m)
  | InMenu => documentClick false true m
  | Outside => documentClick false false m
  end.

Definition isOpen (m : menu) : bool := contains "active" (navMenu m).

(** The attribute tells whether the menu is open. *)
Definition inStep (m : menu) : bool :=
  match ariaExpanded m with
  | Some a => a =? ofBool (isOpen m)
  | None => false
  end.

End Menu.

(** The dark mode switch of the site script. *)
Module DarkMode.

(** The class list of the root element and the [theme] entry of the
    local storage ([None] while there is no such entry). *)
Record theming := mkTheming {
  rootClasses : list string;
  storedTheme : option string
}.

Definition isDark (t : theming) : bool := contains "dark" (rootClasses t).

(** Click on [.theme-toggle]. *)
Definition themeToggleClick (t : theming) : theming :=
  if isDark t
  then mkTheming (remove "dark" (rootClasses t)) (Some "light")
  else mkTheming (add "dark" (rootClasses t)) (Some "dark").

(** The [change] listener of the [prefers-color-scheme] media query. *)
Definition prefersChange (matches : bool) (t : theming) : theming :=
  match storedTheme t with
  | None =>
      if matches
      then mkTheming (add "dark" (rootClasses t)) (storedTheme t)
      else mkTheming (remove "dark" (rootClasses t)) (storedTheme t)
  | Some _ => t
  end.

Inductive happening :=
| ToggleClick
| PrefersChange (matches : bool).

Definition happen (h : happening) (t : theming) : theming :=
  match h with
  | ToggleClick => themeToggleClick t
  | PrefersChange matches => prefersChange matches t
  end.

Definition happenAll (hs : list happening) (t : theming) : theming :=
  fold_left (fun t h => happen h t) hs t.

Definition storedFor (dark : bool) : string := if dark then "dark" else "light".

Definition isToggle (h : happening) : bool :=
  match h with
  | ToggleClick => true
  | PrefersChange _ => false
  end.

End DarkMode.

(** The lazy loading of images of the site script. *)
Module Images.

(** An image: its [src] and [data-src] attributes, and whether the
    observer still watches it. *)
Record image := mkImage {
  src : option string;
  dataSrc : option string;
  observed : bool
}.

(** One entry handed to the callback of the observer. *)
Record entry := mkEntry {
  target : nat;
  isIntersecting : bool
}.

(** [img.dataset.src] is truthy: the attribute is there and not empty. *)
Definition hasDataSrc (i : image) : bool :=
  match dataSrc i with
  | Some d => negb (d =? "")
  | None => false
  end.

Definition load (i : image) : image :=
  if hasDataSrc i then mkImage (dataSrc i) None false else i.

Fixpoint update (n : nat) (f : image -> image) (imgs : list image) : list image :=
  match imgs with
  | [] => []
  | i :: r => match n with
              | O => f i :: r
              | S m => i :: update m f r
              end
  end.

Definition onEntry (e : entry) (imgs : list image) : list image :=
  if isIntersecting e then update (target e) load imgs else imgs.

(** The callback of the observer. *)
Definition onIntersection (entries : list entry) (imgs : list image) : list image :=
  fold_left (fun imgs e => onEntry e imgs) entries imgs.

(** Some entry reported the image number [i] as intersecting. *)
Definition reported (entries : list entry) (i : nat) : bool :=
  existsb (fun e => isIntersecting e && Nat.eqb (target e) i) entries.

(** An image is as it was, or it was loaded from its [data-src]. *)
Definition settled (before after : image) : Prop :=
  after = before
  \/ (exists d, dataSrc before = Some d /\ d <> ""
                /\ after = mkImage (Some d) None false).

End Images.

(** The typing animation of the greeting ([initTypingAnimation]), with
    the timers it sets.  [now] counts the milliseconds of the delays
    given to [setTimeout]; a pending timer is kept with the time it is
    due, which is what decides the order in which the timers run. *)
Module Typing.

Inductive task :=
| CallType
| CallRevealLines
| CallRevealLine (i : nat).

(** The counter [index], the text shown in [.typing-text], the class
    lists of [elements.outputLines], the time and the pending timers. *)
Record animation := mkAnimation {
  index : nat;
  textContent : string;
  outputLines : list (list string);
  now : Z;
  pending : list (Z * task)
}.

Definition setTimeout (t : task) (delay : Z) (a : animation) : animation :=
  mkAnimation (index a) (textContent a) (outputLines a) (now a)
              (pending a ++ [((now a + delay)%Z, t)]).

(** [type()]; [text] is [dataset.text], [None] when the element has no
    [data-text]: then [text.length] throws and the callback ends. *)
Definition type (text : option string) (a : animation) : animation :=
  match text with
  | None => a
  | Some s =>
      if Nat.ltb (index a) (String.length s) then
        let a := mkAnimation (index a) (substring 0 (index a + 1) s)
                             (outputLines a) (now a) (pending a) in
        let a := mkAnimation (S (index a)) (textContent a)
                             (outputLines a) (now a) (pending a) in
        setTimeout CallType 100 a
      else setTimeout CallRevealLines 200 a
  end.

(** [elements.outputLines.forEach((line, i) => setTimeout(..., i * 500))]
    from line [i] on, for [n] lines. *)
Fixpoint scheduleLines (i n : nat) (a : animation) : animation :=
  match n with
  | O => a
  | S m => scheduleLines (S i) m (setTimeout (CallRevealLine i) (Z.of_nat i * 500) a)
  end.

Definition revealLines (a : animation) : animation :=
  scheduleLines 0 (length (outputLines a)) a.

Fixpoint updateAt (i : nat) (f : list string -> list string)
    (l : list (list string)) : list (list string) :=
  match l with
  | [] => []
  | x :: r => match i with
              | O => f x :: r
              | S j => x :: updateAt j f r
              end
  end.

Definition revealLine (i : nat) (a : animation) : animation :=
  mkAnimation (index a) (textContent a)
              (updateAt i (remove "hidden") (outputLines a)) (now a) (pending a).

Definition runTask (text : option string) (t : task) (a : animation) : animation :=
  match t with
  | CallType => type text a
  | CallRevealLines => revealLines a
  | CallRevealLine i => revealLine i a
  end.

(** The position of the timer that is due first; of two that are due at
    the same time the one set first. *)
Fixpoint earliest (q : list (Z * task)) : nat :=
  match q with
  | [] => O
  | (due, _) :: r =>
      match r with
      | [] => O
      | _ :: _ =>
          let j := earliest r in
          if (due <=? fst (nth j r (0%Z, CallType)))%Z then O else S j
      end
  end.

(** The browser waits for the timer that is due first and runs it. *)
Definition tick (text : option string) (a : animation) : animation :=
  match nth_error (pending a) (earliest (pending a)) with
  | Some (due, t) =>
      runTask text t
        (mkAnimation (index a) (textContent a) (outputLines a)
                     (Z.max (now a) due)
                     (Timers.removeNth (earliest (pending a)) (pending a)))
  | None => a
  end.

(** [initTypingAnimation] when [.typing-text] exists. *)
Definition initTypingAnimation (a : animation) : animation :=
  setTimeout CallType 1000 a.

(** The page at the start: nothing typed, no timer. *)
Definition start (shown : string) (lines : list (list string)) : animation :=
  mkAnimation 0 shown lines 0 [].

(** The animation after [k] characters were typed of a text [s]: the
    next call of [type] is pending. *)
Definition typed (s shown : string) (lines : list (list string)) (k : nat)
  : animation :=
  mkAnimation k
    (match k with O => shown | S _ => substring 0 k s end)
    lines
    (match k with O => 0%Z | S i => (1000 + 100 * Z.of_nat i)%Z end)
    [((1000 + 100 * Z.of_nat k)%Z, CallType)].

(** The timers of the reveal for the lines [j], ..., [j + n - 1], set at
    time [t]. *)
Definition revealQueue (t : Z) (j n : nat) : list (Z * task) :=
  map (fun i => ((t + Z.of_nat i * 500)%Z, CallRevealLine i)) (seq j n).

(** The lines when the first [j] have been revealed. *)
Definition revealed (j : nat) (lines : list (list string)) : list (list string) :=
  map (remove "hidden") (firstn j lines) ++ skipn j lines.

(** The animation when the text is typed and the first [j] lines are
    revealed; the reveal was set off at time [t]. *)
Definition revealing (s shown : string) (lines : list (list string)) (t : Z)
    (j : nat) : animation :=
  mkAnimation (String.length s)
    (match String.length s with O => shown | S _ => substring 0 (String.length s) s end)
    (revealed j lines)
    (match j with O => t | S i => (t + Z.of_nat i * 500)%Z end)
    (revealQueue t j (length lines - j)).

End Typing.

(** ** Facts about the string primitives *)

Section Strings.

Lemma lowerChar_idem (c : ascii) : JS.lowerChar (JS.lowerChar c) = JS.lowerChar c.
Proof. destruct c as [[] [] [] [] [] [] [] []]; reflexivity. Qed.

Lemma isWhiteSpace_lowerChar (c : ascii) :
  JS.isWhiteSpace (JS.lowerChar c) = JS.isWhiteSpace c.
Proof. destruct c as [[] [] [] [] [] [] [] []]; reflexivity. Qed.

Lemma toLowerCase_idem (s : string) :
  JS.toLowerCase (JS.toLowerCase s) = JS.toLowerCase s.
Proof.
  induction s as [|c r IH]; simpl; [reflexivity|].
  now rewrite lowerChar_idem, IH.
Qed.

Lemma trimStart_toLowerCase (s : string) :
  JS.trimStart (JS.toLowerCase s) = JS.toLowerCase (JS.trimStart s).
Proof.
  induction s as [|c r IH]; simpl; [reflexivity|].
  rewrite isWhiteSpace_lowerChar.
  destruct (JS.isWhiteSpace c); [exact IH | reflexivity].
Qed.

Lemma trimEnd_toLowerCase (s : string) :
  JS.trimEnd (JS.toLowerCase s) = JS.toLowerCase (JS.trimEnd s).
Proof.
  induction s as [|c r IH]; simpl; [reflexivity|].
  rewrite IH, isWhiteSpace_lowerChar.
  destruct (JS.trimEnd r); simpl; [|reflexivity].
  destruct (JS.isWhiteSpace c); reflexivity.
Qed.

Lemma trim_toLowerCase (s : string) :
  JS.trim (JS.toLowerCase s) = JS.toLowerCase (JS.trim s).
Proof.
  unfold JS.trim. now rewrite trimStart_toLowerCase, trimEnd_toLowerCase.
Qed.

Lemma trimEnd_idem (s : string) : JS.trimEnd (JS.trimEnd s) = JS.trimEnd s.
Proof.
  induction s as [|c r IH]; simpl; [reflexivity|].
  destruct (JS.trimEnd r) as [|c' r'] eqn:E.
  - destruct (JS.isWhiteSpace c) eqn:W; simpl; [reflexivity|].
    now rewrite W.
  - change (JS.trimEnd (String c (String c' r'))) with
      (match JS.trimEnd (String c' r') with
       | EmptyString =>
           if JS.isWhiteSpace c then EmptyString else String c EmptyString
       | r0 => String c r0
       end).
    now rewrite IH.
Qed.

(** A string that does not start with white space keeps its first
    character when its end is trimmed. *)
Lemma trimStart_trimEnd_fixed (s : string) :
  JS.trimStart s = s -> JS.trimStart (JS.trimEnd s) = JS.trimEnd s.
Proof.
  destruct s as [|c r]; simpl; [reflexivity|].
  destruct (JS.isWhiteSpace c) eqn:W.
  - intros H. exfalso.
    assert (L : forall t, String.length (JS.trimStart t) <= String.length t).
    { induction t as [|d t IHt]; simpl; [lia|].
      destruct (JS.isWhiteSpace d); simpl; lia. }
    specialize (L r). rewrite H in L. simpl in L. lia.
  - intros _. destruct (JS.trimEnd r); simpl; now rewrite W.
Qed.

Lemma trimStart_idem (s : string) : JS.trimStart (JS.trimStart s) = JS.trimStart s.
Proof.
  induction s as [|c r IH]; simpl; [reflexivity|].
  destruct (JS.isWhiteSpace c) eqn:W; [exact IH|].
  simpl. now rewrite W.
Qed.

Lemma trim_idem (s : string) : JS.trim (JS.trim s) = JS.trim s.
Proof.
  unfold JS.trim.
  rewrite (trimStart_trimEnd_fixed _ (trimStart_idem s)).
  apply trimEnd_idem.
Qed.

(** The line as [executeCommand] reads it is a fixed point of the
    reading. *)
Lemma normalise_idem (s : string) :
  JS.toLowerCase (JS.trim (JS.toLowerCase (JS.trim s))) = JS.toLowerCase (JS.trim s).
Proof.
  now rewrite trim_toLowerCase, trim_idem, toLowerCase_idem.
Qed.

Lemma split_nonempty (sep : ascii) (s : string) : JS.split sep s <> [].
Proof.
  destruct s as [|c r]; simpl; [discriminate|].
  destruct (Ascii.eqb c sep); [discriminate|].
  destruct (JS.split sep r); discriminate.
Qed.

Lemma prefix_append (n b : string) : String.prefix n (n +:+ b) = true.
Proof.
  induction n as [|c n IH]; simpl.
  - now destruct b.
  - destruct (ascii_dec c c); [exact IH | congruence].
Qed.

Lemma includes_append (n a b : string) : JS.includes n (a +:+ n +:+ b) = true.
Proof.
  induction a as [|c a IH]; cbn [String.append JS.includes].
  - pose proof (prefix_append n b) as P.
    destruct (n +:+ b); cbn [JS.includes]; [exact P | now rewrite P].
  - rewrite IH. apply orb_true_r.
Qed.

Lemma includes_after (n a s : string) :
  JS.includes n s = true -> JS.includes n (a +:+ s) = true.
Proof.
  intros H. induction a as [|c a IH]; cbn [String.append JS.includes].
  - exact H.
  - rewrite IH. apply orb_true_r.
Qed.

End Strings.

(** ** Navigation *)

Section Navigation.

Lemma linksApart_spec (doc : list node) :
  linksApartFromSections doc = true -> LinksApart doc.
Proof.
  unfold linksApartFromSections, LinksApart. intros H n Hn L.
  rewrite forallb_forall in H. specialize (H n Hn).
  rewrite L in H. simpl in H. now destruct (inSections n).
Qed.

Lemma contains_remove (cls : string) (l : list string) :
  contains cls (remove cls l) = false.
Proof.
  induction l as [|c l IH]; simpl; [reflexivity|].
  destruct (String.eqb c cls) eqn:E; simpl; [exact IH|].
  rewrite String.eqb_sym, E. exact IH.
Qed.

Lemma contains_add (cls : string) (l : list string) :
  contains cls (add cls l) = true.
Proof.
  unfold add. destruct (contains cls l) eqn:E; [exact E|].
  unfold contains. rewrite existsb_app. simpl.
  rewrite String.eqb_refl. now rewrite orb_true_r.
Qed.

Lemma isActive_classRemove (n : node) : isActive (classRemove "active" n) = false.
Proof. apply contains_remove. Qed.

Lemma isActive_classAdd (n : node) : isActive (classAdd "active" n) = true.
Proof. apply contains_add. Qed.

Lemma hasId_hideSection (id : string) (n : node) :
  hasId id (hideSection n) = hasId id n.
Proof. unfold hideSection. now destruct (inSections n). Qed.

Lemma getElementById_hidden (id : string) (doc : list node) :
  getElementById id (map hideSection doc)
  = option_map hideSection (getElementById id doc).
Proof.
  unfold getElementById.
  induction doc as [|n r IH]; simpl; [reflexivity|].
  rewrite hasId_hideSection. now destruct (hasId id n).
Qed.

Lemma navigateToSection_missing (id : string) (p : page) :
  getElementById id (document p) = None ->
  navigateToSection id p = set_document (map hideSection (document p)) p.
Proof.
  intros H. unfold navigateToSection. simpl.
  now rewrite getElementById_hidden, H.
Qed.

Lemma navigateToSection_found (id : string) (p : page) (t : node) :
  getElementById id (document p) = Some t ->
  navigateToSection id p
  = set_document (shown id (document p)) (set_currentSection id p).
Proof.
  intros H. unfold navigateToSection. simpl.
  now rewrite getElementById_hidden, H.
Qed.

Lemma inSections_updateNavLink (id : string) (n : node) :
  inSections (updateNavLink id n) = inSections n.
Proof.
  unfold updateNavLink. destruct (inNavLinks n); [|reflexivity].
  now destruct (hrefIs _ _).
Qed.

Lemma updateNavLink_other (id : string) (n : node) :
  inNavLinks n = false -> updateNavLink id n = n.
Proof. unfold updateNavLink. now intros ->. Qed.

Lemma section_not_link (doc : list node) (n : node) :
  LinksApart doc -> In n doc -> inSections n = true ->
  inNavLinks n = false.
Proof.
  intros A Hn S. destruct (inNavLinks n) eqn:L; [|reflexivity].
  rewrite (A n Hn L) in S. discriminate.
Qed.

(** A hidden element is not an active section, also after the links are
    refreshed, when it is not a link itself. *)
Lemma hidden_not_active (id : string) (doc : list node) (n : node) :
  LinksApart doc -> In n doc ->
  inSections (updateNavLink id (hideSection n))
  && isActive (updateNavLink id (hideSection n)) = false.
Proof.
  intros A Hn. rewrite inSections_updateNavLink.
  unfold hideSection. destruct (inSections n) eqn:S; simpl; [|now rewrite S].
  rewrite S. simpl.
  rewrite updateNavLink_other by (simpl; eapply section_not_link; eauto).
  apply isActive_classRemove.
Qed.

(** Once the sections are hidden, refreshing the links leaves no section
    active. *)
Lemma hidden_none_active (id : string) (doc : list node) :
  LinksApart doc ->
  filter (fun n => inSections n && isActive n)
         (map (updateNavLink id) (map hideSection doc)) = [].
Proof.
  induction doc as [|n r IH]; intros A; simpl; [reflexivity|].
  rewrite IH by (intros m Hm; apply A; now right).
  now rewrite (hidden_not_active id (n :: r) n A (or_introl eq_refl)).
Qed.

Lemma shown_active_sections (id : string) (doc : list node) (t : node) :
  getElementById id doc = Some t ->
  inSections t = true ->
  LinksApart doc ->
  map node_id (filter (fun n => inSections n && isActive n) (shown id doc)) = [id].
Proof.
  unfold getElementById, shown.
  induction doc as [|n r IH]; intros F S A; simpl in F; [discriminate|].
  simpl. rewrite hasId_hideSection.
  destruct (hasId id n) eqn:I.
  - injection F as ->. simpl.
    rewrite hidden_none_active by (intros m Hm; apply A; now right).
    pose proof (section_not_link _ t A (or_introl eq_refl) S) as L.
    unfold hideSection. rewrite S.
    rewrite updateNavLink_other by exact L.
    rewrite isActive_classAdd. simpl. rewrite S. simpl.
    unfold hasId in I. apply andb_prop in I as [_ I].
    apply String.eqb_eq in I. now rewrite I.
  - simpl.
    rewrite (hidden_not_active id (n :: r) n A (or_introl eq_refl)).
    apply IH; [exact F | exact S |].
    intros m Hm. apply A. now right.
Qed.

Lemma hrefIs_spec (target : string) (n : node) :
  hrefIs target n = true <-> href n = Some target.
Proof.
  unfold hrefIs. destruct (href n) as [h|].
  - rewrite String.eqb_eq. split; [now intros -> | now intros [= ->]].
  - split; discriminate.
Qed.

Lemma shown_nav_links (id : string) (doc : list node) (n : node) :
  In n (shown id doc) ->
  inNavLinks n = true ->
  (isActive n = true <-> href n = Some ("#" +:+ id)).
Proof.
  unfold shown. intros H L.
  apply in_map_iff in H as [m [<- _]].
  unfold updateNavLink in *.
  destruct (inNavLinks m) eqn:Lm; [|congruence].
  destruct (hrefIs ("#" +:+ id) (classRemove "active" m)) eqn:E.
  - rewrite isActive_classAdd. apply hrefIs_spec in E. simpl in *. tauto.
  - rewrite isActive_classRemove. split; [discriminate|].
    intros Hh. apply hrefIs_spec in Hh. simpl in *. congruence.
Qed.

Lemma hidden_nav_links (doc : list node) :
  LinksApart doc ->
  filter inNavLinks (map hideSection doc) = filter inNavLinks doc.
Proof.
  induction doc as [|n r IH]; intros A; simpl; [reflexivity|].
  rewrite IH by (intros m Hm; apply A; now right).
  unfold hideSection. destruct (inSections n) eqn:S; [|reflexivity].
  simpl. destruct (inNavLinks n) eqn:L; [|reflexivity].
  rewrite (A n (or_introl eq_refl) L) in S. discriminate.
Qed.

Lemma hidden_no_active_section (doc : list node) :
  filter (fun n => inSections n && isActive n) (map hideSection doc) = [].
Proof.
  induction doc as [|n r IH]; simpl; [reflexivity|].
  rewrite IH. unfold hideSection.
  destruct (inSections n) eqn:S; simpl; [|now rewrite S].
  rewrite S. simpl. now rewrite (isActive_classRemove n).
Qed.

(** C5. For every section id whose element is in the document (the five
    names [home], [about], [projects], [blog], [contact] of the page among
    them), [navigateToSection id] leaves exactly one section active, the
    one with that id; a navigation link is highlighted exactly when its
    [href] is [#id]; and [id] is recorded as [currentSection]. *)
Theorem navigateToSection_valid (id : string) (p : page) (t : node) :
  getElementById id (document p) = Some t ->
  inSections t = true ->
  linksApartFromSections (document p) = true ->
  map node_id (activeSections (navigateToSection id p)) = [id]
  /\ (forall n, In n (navLinks (navigateToSection id p)) ->
             (isActive n = true <-> href n = Some ("#" +:+ id)))
  /\ currentSection (state (navigateToSection id p)) = id.
Proof.
  intros F S A. apply linksApart_spec in A.
  rewrite (navigateToSection_found id p t F).
  unfold activeSections, navLinks. simpl. repeat split.
  - now apply (shown_active_sections id (document p) t).
  - apply filter_In in H as [Hn L].
    apply (shown_nav_links id (document p) n Hn L).
  - apply filter_In in H as [Hn L].
    apply (shown_nav_links id (document p) n Hn L).
Qed.

(** The about section of the sample page. *)
Lemma navigateToSection_valid_witness :
  getElementById "about" (document Sample.page0) = Some (Sample.section "about" false)
  /\ inSections (Sample.section "about" false) = true
  /\ linksApartFromSections (document Sample.page0) = true
  /\ map node_id (activeSections (navigateToSection "about" Sample.page0)) = ["about"]
  /\ (forall n, In n (navLinks (navigateToSection "about" Sample.page0)) ->
             (isActive n = true <-> href n = Some ("#" +:+ "about")))
  /\ currentSection (state (navigateToSection "about" Sample.page0)) = "about".
Proof.
  split; [reflexivity|]. split; [reflexivity|]. split; [reflexivity|].
  apply (navigateToSection_valid "about" Sample.page0 (Sample.section "about" false));
    reflexivity.
Defined.

(** C2 as stated: a call for an id that no element carries changes
    neither [currentSection], nor the set of active sections, nor the
    highlighting of the links.  It fails on the sample page, where the
    call hides the active home section. *)
Lemma navigateToSection_missing_not_noop :
  getElementById "nowhere" (document Sample.page0) = None
  /\ map node_id (activeSections Sample.page0) = ["home"]
  /\ map node_id (activeSections (navigateToSection "nowhere" Sample.page0)) = []
  /\ ~ (forall (id : string) (p : page),
          getElementById id (document p) = None ->
          currentSection (state (navigateToSection id p)) = currentSection (state p)
          /\ activeSections (navigateToSection id p) = activeSections p
          /\ navLinks (navigateToSection id p) = navLinks p).
Proof.
  split; [reflexivity|]. split; [reflexivity|]. split; [reflexivity|].
  intros H.
  destruct (H "nowhere" Sample.page0 eq_refl) as (_ & Hactive & _).
  vm_compute in Hactive. discriminate Hactive.
Qed.

(** C2, amended. For every id that no element of the document carries,
    [navigateToSection id] only hides the sections: the [state] object,
    and with it [currentSection], is unchanged, no section is active
    afterwards, and the navigation links are unchanged. *)
Theorem navigateToSection_missing_hides_sections (id : string) (p : page) :
  getElementById id (document p) = None ->
  linksApartFromSections (document p) = true ->
  navigateToSection id p = set_document (map hideSection (document p)) p
  /\ state (navigateToSection id p) = state p
  /\ activeSections (navigateToSection id p) = []
  /\ navLinks (navigateToSection id p) = navLinks p.
Proof.
  intros F A. apply linksApart_spec in A.
  rewrite (navigateToSection_missing id p F).
  unfold activeSections, navLinks. simpl. repeat split.
  - apply hidden_no_active_section.
  - now apply hidden_nav_links.
Qed.

(** An id that the sample page does not have. *)
Lemma navigateToSection_missing_hides_sections_witness :
  getElementById "nowhere" (document Sample.page0) = None
  /\ linksApartFromSections (document Sample.page0) = true
  /\ navigateToSection "nowhere" Sample.page0
     = set_document (map hideSection (document Sample.page0)) Sample.page0
  /\ state (navigateToSection "nowhere" Sample.page0) = state Sample.page0
  /\ activeSections (navigateToSection "nowhere" Sample.page0) = []
  /\ navLinks (navigateToSection "nowhere" Sample.page0) = navLinks Sample.page0.
Proof.
  split; [reflexivity|]. split; [reflexivity|].
  apply (navigateToSection_missing_hides_sections "nowhere" Sample.page0);
    reflexivity.
Defined.

End Navigation.

(** ** Command dispatch *)

Section Dispatch.

Lemma commands_return_string (name : string) (h : handler) :
  commands name = Some h ->
  forall args p, exists s p', h args p = (VString s, p').
Proof.
  unfold commands.
  repeat match goal with
         | |- (if ?b then _ else _) = _ -> _ =>
             destruct b; [intros [= <-] args p | ]
         end;
    try discriminate;
    try (unfold cd; destruct (JS.arrayIncludes _ _));
    eexists; eexists; reflexivity.
Qed.

Lemma executeCommand_own (input : string) (p : page) (cmd : string)
    (args : list string) (h : handler) :
  JS.split " " (JS.toLowerCase (JS.trim input)) = cmd :: args ->
  commands cmd = Some h ->
  executeCommand input p = (let (v, p') := h args p in Normal v p').
Proof.
  intros Hs Hc. unfold executeCommand, commandsGet. now rewrite Hs, Hc.
Qed.

(** A word that is neither a command nor one of the two inherited keys
    gets the fixed message. *)
Lemma executeCommand_unknown (input : string) (p : page) (cmd : string)
    (args : list string) :
  JS.split " " (JS.toLowerCase (JS.trim input)) = cmd :: args ->
  commandsGet cmd = None ->
  executeCommand input p
  = Normal (VString ("Command not found: " +:+ cmd
                     +:+ ". Type 'help' for available commands.")) p.
Proof.
  intros Hs Hc. unfold executeCommand. now rewrite Hs, Hc.
Qed.

(** The interpreter throws exactly on the lines whose command word is
    [__proto__]. *)
Lemma executeCommand_throws (input : string) (p : page) :
  (exists e q, executeCommand input p = Throw e q)
  <-> exists args,
        JS.split " " (JS.toLowerCase (JS.trim input)) = "__proto__" :: args.
Proof.
  unfold executeCommand.
  destruct (JS.split " " (JS.toLowerCase (JS.trim input))) as [|cmd args].
  { split; [intros (e & q & H) | intros (a & H)]; discriminate H. }
  unfold commandsGet. destruct (commands cmd) as [h|] eqn:C.
  { simpl. destruct (h args p) as [v q'].
    split; [intros (e & q & H); discriminate H |].
    intros (a & H). injection H as -> _. discriminate C. }
  destruct (cmd =? "constructor") eqn:E1.
  { split; [intros (e & q & H); discriminate H |].
    intros (a & H). injection H as -> _. discriminate E1. }
  destruct (cmd =? "__proto__") eqn:E2.
  - apply String.eqb_eq in E2. subst cmd. split; intros _.
    + now exists args.
    + simpl. eauto.
  - split; [intros (e & q & H); discriminate H |].
    intros (a & H). injection H as -> _. discriminate E2.
Qed.

(** C10. [executeCommand] gives the same result, value and page, on a
    line and on its trimmed, lower-cased form; so ["CD ABOUT"] navigates
    exactly as ["cd about"] does. *)
Theorem executeCommand_normalised (s : string) (p : page) :
  executeCommand s p = executeCommand (JS.toLowerCase (JS.trim s)) p
  /\ executeCommand "CD ABOUT" p = executeCommand "cd about" p
  /\ executeCommand "CD ABOUT" p
     = Normal (VString "Navigating to about...") (navigateToSection "about" p).
Proof.
  split; [|split; reflexivity].
  unfold executeCommand. now rewrite normalise_idem.
Qed.

(** C3 at the line ["__proto__"]: it is not a command of the registry,
    yet the lookup finds the prototype object, which is then called, and
    the call throws.  At ["constructor"], also no command, the argument
    array comes back in place of the message. *)
Theorem executeCommand_inherited_keys (p : page) :
  commands "__proto__" = None
  /\ executeCommand "__proto__" p
     = Throw (TypeError "commands[cmd] is not a function") p
  /\ commands "constructor" = None
  /\ executeCommand "constructor" p = Normal (VArray []) p.
Proof. repeat split. Qed.

(** C4 as stated, with the line cut at white space, fails on a line with
    two spaces: the specification reads the argument [about], the script
    reads an empty first argument. *)
Lemma executeCommand_not_on_whitespace :
  Spec.splitOnWhitespace (JS.toLowerCase "cd  about") = ["cd"; "about"]
  /\ JS.split " " (JS.toLowerCase (JS.trim "cd  about")) = ["cd"; ""; "about"]
  /\ fst (cd ["about"] Sample.page0) = VString "Navigating to about..."
  /\ executeCommand "cd  about" Sample.page0
     = Normal (VString "Error: : No such directory") Sample.page0
  /\ ~ dispatchesOnWhitespace.
Proof.
  do 4 (split; [reflexivity|]).
  intros H.
  specialize (H "cd  about" Sample.page0 "cd" ["about"] cd eq_refl eq_refl).
  vm_compute in H. discriminate H.
Qed.

(** C4, amended. The trimmed, lower-cased line is cut at every single
    space character; the first piece is the command word and the
    remaining pieces, empty ones included, are the arguments.  When the
    command word is in the registry, its handler is run on the arguments
    and the string it returns is the result. *)
Theorem executeCommand_dispatch (input : string) (p : page) (cmd : string)
    (args : list string) (h : handler) :
  JS.split " " (JS.toLowerCase (JS.trim input)) = cmd :: args ->
  commands cmd = Some h ->
  exists s p', h args p = (VString s, p')
               /\ executeCommand input p = Normal (VString s) p'.
Proof.
  intros Hs Hc.
  destruct (commands_return_string cmd h Hc args p) as (s & p' & E).
  exists s, p'. split; [exact E|].
  rewrite (executeCommand_own input p cmd args h Hs Hc). now rewrite E.
Qed.

(** A line in capitals with blanks around it. *)
Lemma executeCommand_dispatch_witness :
  JS.split " " (JS.toLowerCase (JS.trim "  CD About ")) = "cd" :: ["about"]
  /\ commands "cd" = Some cd
  /\ exists s p', cd ["about"] Sample.page0 = (VString s, p')
                  /\ executeCommand "  CD About " Sample.page0 = Normal (VString s) p'.
Proof.
  split; [reflexivity|]. split; [reflexivity|].
  apply (executeCommand_dispatch "  CD About " Sample.page0 "cd" ["about"] cd);
    reflexivity.
Defined.

(** C6. ["cd about"] navigates to the about section and answers with a
    string that contains "about"; a line whose command word is [cd] and
    whose first argument is none of the five section names answers with
    a string that contains "No such directory" and leaves the page, and
    so [currentSection], as it was. *)
Theorem cd_contract (input : string) (args : list string) (p : page) (t : node) :
  getElementById "about" (document p) = Some t ->
  inSections t = true ->
  linksApartFromSections (document p) = true ->
  JS.split " " (JS.toLowerCase (JS.trim input)) = "cd" :: args ->
  JS.arrayIncludes sectionNames (nth_error args 0) = false ->
  (exists s p',
      executeCommand "cd about" p = Normal (VString s) p'
      /\ JS.includes "about" s = true
      /\ currentSection (state p') = "about"
      /\ map node_id (activeSections p') = ["about"])
  /\ (exists s,
         executeCommand input p = Normal (VString s) p
         /\ JS.includes "No such directory" s = true).
Proof.
  intros F S A Hs Hn. split.
  - exists "Navigating to about...", (navigateToSection "about" p).
    split; [reflexivity|]. split; [reflexivity|].
    rewrite (navigateToSection_found "about" p t F).
    split; [reflexivity|].
    unfold activeSections. simpl.
    apply (shown_active_sections "about" (document p) t F S).
    now apply linksApart_spec.
  - exists ("Error: " +:+ JS.interpolate (nth_error args 0) +:+ ": No such directory").
    split.
    + rewrite (executeCommand_own input p "cd" args cd Hs eq_refl).
      unfold cd. now rewrite Hn.
    + apply (includes_after _ "Error: "), includes_after. reflexivity.
Qed.

(** The two lines of the specification on the sample page. *)
Lemma cd_contract_witness :
  getElementById "about" (document Sample.page0) = Some (Sample.section "about" false)
  /\ inSections (Sample.section "about" false) = true
  /\ linksApartFromSections (document Sample.page0) = true
  /\ JS.split " " (JS.toLowerCase (JS.trim "cd nowhere")) = "cd" :: ["nowhere"]
  /\ JS.arrayIncludes sectionNames (nth_error ["nowhere"] 0) = false
  /\ (exists s p',
        executeCommand "cd about" Sample.page0 = Normal (VString s) p'
        /\ JS.includes "about" s = true
        /\ currentSection (state p') = "about"
        /\ map node_id (activeSections p') = ["about"])
  /\ (exists s,
        executeCommand "cd nowhere" Sample.page0 = Normal (VString s) Sample.page0
        /\ JS.includes "No such directory" s = true).
Proof.
  do 5 (split; [reflexivity|]).
  apply (cd_contract "cd nowhere" ["nowhere"] Sample.page0
           (Sample.section "about" false)); reflexivity.
Defined.

End Dispatch.

(** ** What leaves the [state] object alone *)

Section Frames.

Lemma state_displayOutput (v : value) (p : page) :
  state (displayOutput v p) = state p.
Proof. unfold displayOutput. now destruct (output p). Qed.

Lemma state_removeCommandOutputs (p : page) :
  state (removeCommandOutputs p) = state p.
Proof. unfold removeCommandOutputs. now destruct (output p). Qed.

Lemma state_toggleMatrixEffect (p : page) : state (toggleMatrixEffect p) = state p.
Proof. unfold toggleMatrixEffect. now destruct (matrixCanvas p). Qed.

Lemma state_changeTheme (theme : string) (p : page) :
  state (changeTheme theme p) = state p.
Proof.
  unfold changeTheme. generalize (selectedThemeEntries theme) as entries.
  intros entries. revert p.
  induction entries as [|e r IH]; intros p; simpl; [reflexivity|].
  now rewrite IH.
Qed.

Lemma state_scheduleFrom (msgs : list string) (index : Z) (p : page) :
  state (scheduleFrom index msgs p) = state p.
Proof.
  revert index p. induction msgs as [|m r IH]; intros index p; simpl; [reflexivity|].
  now rewrite IH.
Qed.

Lemma state_activateKonamiCode (p : page) : state (activateKonamiCode p) = state p.
Proof. unfold activateKonamiCode. simpl. apply state_displayOutput. Qed.

Lemma history_navigateToSection (id : string) (p : page) :
  history (navigateToSection id p) = history p.
Proof.
  unfold navigateToSection. simpl.
  now destruct (getElementById id (map hideSection (document p))).
Qed.

Lemma history_of_state (p q : page) : state p = state q -> history p = history q.
Proof. unfold history. now intros ->. Qed.

Lemma history_command (name : string) (h : handler) :
  commands name = Some h ->
  forall args p, history (snd (h args p)) = history p.
Proof.
  unfold commands.
  repeat match goal with
         | |- (if ?b then _ else _) = _ -> _ =>
             destruct b; [intros [= <-] args p | ]
         end;
    try discriminate; try reflexivity;
    try (unfold cd; destruct (JS.arrayIncludes _ _); simpl;
         [apply history_navigateToSection | reflexivity]);
    apply history_of_state;
    first [ apply state_removeCommandOutputs
          | apply state_toggleMatrixEffect
          | apply state_changeTheme
          | apply state_scheduleFrom ].
Qed.

Lemma history_executeCommand (input : string) (p : page) :
  history (pageOf (executeCommand input p)) = history p.
Proof.
  unfold executeCommand.
  destruct (JS.split " " (JS.toLowerCase (JS.trim input))) as [|cmd args];
    [reflexivity|].
  unfold commandsGet. destruct (commands cmd) as [h|] eqn:E.
  - simpl. pose proof (history_command cmd h E args p) as H.
    now destruct (h args p).
  - destruct (cmd =? "constructor"); [reflexivity|].
    now destruct (cmd =? "__proto__").
Qed.

Lemma history_keyboardShortcuts (e : KeyboardEvent) (p : page) :
  history (keyboardShortcuts e p) = history p.
Proof.
  unfold keyboardShortcuts.
  repeat match goal with
         | |- context [if ?b then _ else _] => destruct b
         end;
    repeat first [ rewrite history_navigateToSection
                 | rewrite (history_of_state _ _ (state_removeCommandOutputs _)) ];
    reflexivity.
Qed.

Lemma history_konamiListener (e : KeyboardEvent) (p : page) :
  history (konamiListener e p) = history p.
Proof.
  unfold konamiListener.
  destruct (nth_error konamiCode (konamiIndex p)); [|reflexivity].
  destruct (key e =? s); [|reflexivity].
  simpl. destruct (Nat.eqb _ _); [|reflexivity].
  apply history_of_state. simpl.
  apply (state_displayOutput _ (set_konamiIndex (S (konamiIndex p)) p)).
Qed.

Lemma history_documentKeydown (e : KeyboardEvent) (p : page) :
  history (documentKeydown e p) = history p.
Proof.
  unfold documentKeydown.
  now rewrite history_keyboardShortcuts, history_konamiListener.
Qed.

(** A key that is not part of the code sends the cursor back to zero and
    does nothing else. *)
Lemma konamiListener_foreign (e : KeyboardEvent) (p : page) :
  ~ In (key e) konamiCode -> konamiListener e p = set_konamiIndex 0 p.
Proof.
  intros H. unfold konamiListener.
  destruct (nth_error konamiCode (konamiIndex p)) as [k|] eqn:E; [|reflexivity].
  destruct (key e =? k) eqn:K; [|reflexivity].
  apply String.eqb_eq in K. subst k.
  exfalso. apply H. eapply nth_error_In. exact E.
Qed.

End Frames.

(** ** The input line *)

Section Input.

Local Open Scope Z_scope.

Lemma run_cons (ev : event) (evs : list event) (p : page) :
  run (ev :: evs) p = run evs (step ev p).
Proof. reflexivity. Qed.

(** What one key does to the history and its cursor. *)
Lemma handleTerminalInput_history (e : KeyboardEvent) (p : page) :
  history (pageOf (handleTerminalInput e p)) = history p
  \/ (key e = "Enter"
      /\ exists x, history (pageOf (handleTerminalInput e p))
                   = (commandHistory (state p) ++ [x],
                      Z.of_nat (length (commandHistory (state p) ++ [x]))))
  \/ (key e = "ArrowUp" /\ historyIndex (state p) > 0
      /\ history (pageOf (handleTerminalInput e p))
         = (commandHistory (state p), historyIndex (state p) - 1))
  \/ (key e = "ArrowDown" /\ historyIndex (state p) < historyLength p - 1
      /\ history (pageOf (handleTerminalInput e p))
         = (commandHistory (state p), historyIndex (state p) + 1))
  \/ (key e = "ArrowDown" /\ historyIndex (state p) >= historyLength p - 1
      /\ history (pageOf (handleTerminalInput e p))
         = (commandHistory (state p), historyLength p)).
Proof.
  unfold handleTerminalInput.
  destruct (key e =? "Enter")%string eqn:K1.
  { apply String.eqb_eq in K1.
    destruct (JS.trim (terminalInput p) =? "")%string; [now left|].
    pose proof (history_executeCommand (JS.trim (terminalInput p)) p) as H.
    destruct (executeCommand (JS.trim (terminalInput p)) p) as [out q|err q];
      simpl in H; [|now left].
    right; left. split; [exact K1|]. exists (JS.trim (terminalInput p)).
    unfold history in *. simpl. rewrite state_displayOutput.
    injection H as Hh _. unfold historyLength. simpl.
    rewrite state_displayOutput. now rewrite Hh. }
  destruct (key e =? "ArrowUp")%string eqn:K2.
  { apply String.eqb_eq in K2.
    destruct (historyIndex (state p) >? 0) eqn:G; [|now left].
    right; right; left. apply Z.gtb_lt in G.
    split; [exact K2|]. split; [lia|reflexivity]. }
  destruct (key e =? "ArrowDown")%string eqn:K3; [|now left].
  apply String.eqb_eq in K3.
  destruct (historyIndex (state p) <? historyLength p - 1) eqn:G.
  - apply Z.ltb_lt in G. right; right; right; left.
    split; [exact K3|]. split; [exact G|reflexivity].
  - apply Z.ltb_ge in G. right; right; right; right.
    split; [exact K3|]. split; [lia|reflexivity].
Qed.

Lemma step_history (ev : event) (p : page) :
  (exists e, ev = KeydownInput e
             /\ history (step ev p) = history (pageOf (handleTerminalInput e p)))
  \/ history (step ev p) = history p.
Proof.
  destruct ev as [e|e|text|target]; simpl.
  - left. exists e. split; [reflexivity|]. apply history_documentKeydown.
  - right. apply history_documentKeydown.
  - now right.
  - right. apply history_navigateToSection.
Qed.

Lemma step_cursorInRange (ev : event) (p : page) :
  cursorInRange p -> cursorInRange (step ev p).
Proof.
  unfold cursorInRange, historyLength. intros I.
  destruct (step_history ev p) as [(e & _ & H)|H].
  - destruct (handleTerminalInput_history e p)
      as [C|[(_ & x & C)|[(_ & G & C)|[(_ & G & C)|(_ & G & C)]]]];
      rewrite <- H in C; clear H;
      unfold history, historyLength in *;
      injection C as Hh Hi; rewrite Hh, Hi.
    + destruct I as [I|I]; [left; exact I | right; exact I].
    + right. lia.
    + right. destruct I as [I|I]; [injection I as _ I|]; lia.
    + right. destruct I as [I|I]; [injection I as I1 I2; rewrite I1 in G; simpl in G|]; lia.
    + right. lia.
  - unfold history in *. injection H as Hh Hi. now rewrite Hh, Hi.
Qed.

Lemma run_cursorInRange (evs : list event) (p : page) :
  cursorInRange p -> cursorInRange (run evs p).
Proof.
  revert p. induction evs as [|ev evs IH]; intros p I; [exact I|].
  rewrite run_cons. apply IH, step_cursorInRange, I.
Qed.

Lemma step_appends (ev : event) (p : page) :
  commandHistory (state (step ev p)) = commandHistory (state p)
  \/ exists e x, ev = KeydownInput e /\ key e = "Enter"%string
                 /\ commandHistory (state (step ev p))
                    = commandHistory (state p) ++ [x].
Proof.
  destruct (step_history ev p) as [(e & -> & H)|H].
  - destruct (handleTerminalInput_history e p)
      as [C|[(K & x & C)|[(_ & _ & C)|[(_ & _ & C)|(_ & _ & C)]]]];
      rewrite <- H in C; clear H; unfold history in C; injection C as Hh _;
      try (left; exact Hh).
    right. exists e, x. repeat split; assumption.
  - left. unfold history in H. now injection H.
Qed.

(** C8. In every page reached from the start of the script by key
    events, edits of the field and clicks, the cursor lies in
    [0, length(commandHistory)] unless it is still the fresh [-1] over an
    empty history; and the next event either leaves the history as it is
    or is an Enter key in the field and appends one entry. *)
Theorem history_append_only_cursor_in_range
    (evs : list event) (ev : event) (doc : list node) (out : option (list line))
    (field : string) (canvas : option string) (style : list (string * string)) :
  cursorInRange (run evs (initialPage doc out field canvas style))
  /\ (commandHistory (state (step ev (run evs (initialPage doc out field canvas style))))
      = commandHistory (state (run evs (initialPage doc out field canvas style)))
      \/ exists e x,
           ev = KeydownInput e /\ key e = "Enter"%string
           /\ commandHistory
                (state (step ev (run evs (initialPage doc out field canvas style))))
              = commandHistory (state (run evs (initialPage doc out field canvas style)))
                ++ [x]).
Proof.
  split.
  - apply run_cursorInRange. left. reflexivity.
  - apply step_appends.
Qed.

(** C7. After the commands a, b, c, ArrowUp recalls c, then b, then a; a
    fourth ArrowUp changes neither the field nor the history; ArrowDown
    then recalls b, then c, and one more empties the field and puts the
    cursor at the length of the history. *)
Theorem history_recall
    (doc : list node) (out : option (list line)) (field : string)
    (canvas : option string) (style : list (string * string)) :
  let entered := run (enter "a" ++ enter "b" ++ enter "c")
                     (initialPage doc out field canvas style) in
  history entered = (["a"; "b"; "c"]%string, 3)
  /\ terminalInput (run [arrowUp] entered) = "c"%string
  /\ terminalInput (run [arrowUp; arrowUp] entered) = "b"%string
  /\ terminalInput (run [arrowUp; arrowUp; arrowUp] entered) = "a"%string
  /\ handleTerminalInput (plainKey "ArrowUp") (run [arrowUp; arrowUp; arrowUp] entered)
     = Normal tt (run [arrowUp; arrowUp; arrowUp] entered)
  /\ terminalInput (run [arrowUp; arrowUp; arrowUp; arrowUp] entered) = "a"%string
  /\ history (run [arrowUp; arrowUp; arrowUp; arrowUp] entered)
     = history (run [arrowUp; arrowUp; arrowUp] entered)
  /\ terminalInput (run [arrowUp; arrowUp; arrowUp; arrowUp; arrowDown] entered)
     = "b"%string
  /\ terminalInput
       (run [arrowUp; arrowUp; arrowUp; arrowUp; arrowDown; arrowDown] entered)
     = "c"%string
  /\ terminalInput
       (run [arrowUp; arrowUp; arrowUp; arrowUp; arrowDown; arrowDown; arrowDown]
            entered) = ""%string
  /\ history
       (run [arrowUp; arrowUp; arrowUp; arrowUp; arrowDown; arrowDown; arrowDown]
            entered) = (["a"; "b"; "c"]%string, 3).
Proof.
  destruct out; vm_compute; repeat split.
Qed.

(** The transcript after Enter on ["clear"]. *)
Lemma clear_output (children : list line) (p : page) :
  output (run (enter "clear") (set_output (Some children) p))
  = Some (bootLines children ++ [blankOutputLine]).
Proof.
  unfold run, enter. simpl fold_left. unfold step, documentKeydown.
  rewrite konamiListener_foreign.
  - reflexivity.
  - simpl. intros H. repeat destruct H as [H|H]; try discriminate H; exact H.
Qed.

(** C1 on the script: pressing Enter on ["clear"] removes the command
    outputs and keeps the boot lines, but the empty string that [clear]
    returns is handed to [displayOutput] all the same, so the transcript
    ends with one more, empty, command-output element and is not the
    list of the boot lines. *)
Theorem clear_leaves_blank_line (children : list line) (p : page) :
  output (run (enter "clear") (set_output (Some children) p))
  = Some (bootLines children ++ [blankOutputLine])
  /\ output (run (enter "clear") (set_output (Some children) p))
     <> Some (bootLines children)
  /\ output (run (enter "ls" ++ enter "clear") Sample.page0)
     = Some [Sample.bootLine; blankOutputLine].
Proof.
  split; [apply clear_output|]. split; [|reflexivity].
  rewrite clear_output. intros H. injection H as H.
  apply (f_equal (@length line)) in H. rewrite length_app in H. simpl in H.
  lia.
Qed.

End Input.

(** ** The Konami code *)

Section Konami.

Lemma konamiListener_mismatch (e : KeyboardEvent) (p : page) :
  konamiExpects p (key e) = false -> konamiListener e p = set_konamiIndex 0 p.
Proof.
  unfold konamiExpects, konamiListener.
  destruct (nth_error konamiCode (konamiIndex p)); [|reflexivity].
  now intros ->.
Qed.

Ltac name_keys es H :=
  do 10 (destruct es as [|[? ? ? ?] es]; [discriminate H|]);
  destruct es; [|discriminate H];
  simpl in H; injection H as ? ? ? ? ? ? ? ? ? ?; subst.

(** Before the last key of the code only the cursor moves. *)
Lemma feed_prefix (es : list KeyboardEvent) (p : page) (k : nat) :
  map key es = konamiCode -> k < 10 ->
  feed (firstn k es) (set_konamiIndex 0 p) = set_konamiIndex k p.
Proof.
  intros H L. name_keys es H.
  do 10 (destruct k as [|k]; [reflexivity|]). lia.
Qed.

Lemma feed_app (a b : list KeyboardEvent) (p : page) :
  feed (a ++ b) p = feed b (feed a p).
Proof. apply fold_left_app. Qed.

Lemma output_set_konamiIndex (k : nat) (p : page) :
  output (set_konamiIndex k p) = output p.
Proof. reflexivity. Qed.

(** Where the cursor stood when the code was completed does not show in
    the page. *)
Lemma activateKonamiCode_cursor (k : nat) (p : page) :
  set_konamiIndex 0 (activateKonamiCode (set_konamiIndex k p))
  = activateKonamiCode (set_konamiIndex 0 p).
Proof.
  unfold activateKonamiCode, displayOutput.
  rewrite !output_set_konamiIndex. destruct (output p); reflexivity.
Qed.

(** The tenth key. *)
Lemma konamiListener_last (e : KeyboardEvent) (p : page) :
  key e = "a" ->
  konamiListener e (set_konamiIndex 9 p) = activateKonamiCode (set_konamiIndex 0 p).
Proof.
  intros K. rewrite <- (activateKonamiCode_cursor 10 p).
  unfold konamiListener.
  change (nth_error konamiCode (konamiIndex (set_konamiIndex 9 p))) with (Some "a").
  rewrite K, String.eqb_refl. reflexivity.
Qed.

Lemma feed_code (es : list KeyboardEvent) (p : page) :
  map key es = konamiCode ->
  feed es (set_konamiIndex 0 p) = activateKonamiCode (set_konamiIndex 0 p).
Proof.
  intros H. rewrite <- (firstn_skipn 9 es) at 1.
  rewrite feed_app, (feed_prefix es p 9 H) by lia.
  name_keys es H. apply konamiListener_last. reflexivity.
Qed.

Lemma activateKonamiCode_timers (p : page) :
  length (timers (activateKonamiCode p)) = S (length (timers p)).
Proof.
  unfold activateKonamiCode, displayOutput. simpl. rewrite length_app. simpl.
  destruct (output p); simpl; lia.
Qed.

Lemma konamiIndex_activateKonamiCode (p : page) :
  konamiIndex (activateKonamiCode p) = konamiIndex p.
Proof. unfold activateKonamiCode, displayOutput. simpl. now destruct (output p). Qed.

(** C9. From cursor zero, the ten keys of the code in order run
    [activateKonamiCode] once, at the tenth key and not before, and leave
    the cursor at zero; a key that is not the expected one sends the
    cursor to zero and does nothing else. *)
Theorem konami_sequence (es : list KeyboardEvent) (e : KeyboardEvent) (p q : page) :
  map key es = konamiCode ->
  konamiIndex p = 0 ->
  konamiExpects q (key e) = false ->
  feed es p = activateKonamiCode p
  /\ konamiIndex (feed es p) = 0
  /\ length (timers (feed es p)) = S (length (timers p))
  /\ (forall k, k < 10 -> feed (firstn k es) p = set_konamiIndex k p)
  /\ konamiListener e q = set_konamiIndex 0 q.
Proof.
  intros Hes H0 Hq.
  assert (P : set_konamiIndex 0 p = p) by (destruct p; simpl in H0; now subst).
  assert (F : feed es p = activateKonamiCode p).
  { rewrite <- P. now apply feed_code. }
  split; [exact F|]. rewrite F.
  split; [now rewrite konamiIndex_activateKonamiCode|].
  split; [apply activateKonamiCode_timers|].
  split; [|now apply konamiListener_mismatch].
  intros k L. rewrite <- P at 1. now apply feed_prefix.
Qed.

(** The code typed without modifier keys on the sample page, and a
    [b] pressed when the fifth key of the code was due. *)
Lemma konami_sequence_witness :
  map key (map plainKey konamiCode) = konamiCode
  /\ konamiIndex Sample.page0 = 0
  /\ konamiExpects (set_konamiIndex 4 Sample.page0) (key (plainKey "b")) = false
  /\ feed (map plainKey konamiCode) Sample.page0 = activateKonamiCode Sample.page0
  /\ konamiIndex (feed (map plainKey konamiCode) Sample.page0) = 0
  /\ length (timers (feed (map plainKey konamiCode) Sample.page0))
     = S (length (timers Sample.page0))
  /\ (forall k, k < 10 ->
        feed (firstn k (map plainKey konamiCode)) Sample.page0
        = set_konamiIndex k Sample.page0)
  /\ konamiListener (plainKey "b") (set_konamiIndex 4 Sample.page0)
     = set_konamiIndex 0 (set_konamiIndex 4 Sample.page0).
Proof.
  split; [reflexivity|]. split; [reflexivity|]. split; [reflexivity|].
  apply (konami_sequence (map plainKey konamiCode) (plainKey "b") Sample.page0
           (set_konamiIndex 4 Sample.page0)); reflexivity.
Defined.

End Konami.

(** ** More on navigation *)

Section NavigationAgain.

Lemma remove_idem (cls : string) (l : list string) :
  remove cls (remove cls l) = remove cls l.
Proof.
  unfold remove. induction l as [|c l IH]; simpl; [reflexivity|].
  destruct (negb (c =? cls)) eqn:E; simpl; [rewrite E|]; now rewrite ?IH.
Qed.

Lemma remove_add (cls : string) (l : list string) :
  remove cls (add cls l) = remove cls l.
Proof.
  unfold add. destruct (contains cls l); [reflexivity|].
  unfold remove. rewrite filter_app. simpl.
  rewrite String.eqb_refl. simpl. apply app_nil_r.
Qed.

Lemma add_idem (cls : string) (l : list string) :
  add cls (add cls l) = add cls l.
Proof. unfold add at 1. now rewrite contains_add. Qed.

Ltac node_compute :=
  cbv beta iota zeta delta
    [hideSection updateNavLink hrefIs classAdd classRemove setClassList
     node_id classList href inSections inNavLinks].

Ltac node_cases id n :=
  destruct n as [i cl [h|] [] []];
  generalize ("#" +:+ id); intros ?;
  node_compute;
  repeat match goal with
         | |- context [if (?a =? ?b)%string then _ else _] =>
             let E := fresh "E" in
             destruct (a =? b)%string eqn:E; node_compute; rewrite ?E; node_compute
         end;
  rewrite ?remove_add, ?remove_idem, ?add_idem; reflexivity.

Lemma hide_link_twice (id : string) (n : node) :
  updateNavLink id (hideSection (updateNavLink id (hideSection n)))
  = updateNavLink id (hideSection n).
Proof. node_cases id n. Qed.

Lemma show_twice (id : string) (n : node) :
  updateNavLink id (classAdd "active" (hideSection
    (updateNavLink id (classAdd "active" (hideSection n)))))
  = updateNavLink id (classAdd "active" (hideSection n)).
Proof. node_cases id n. Qed.

Lemma hideSection_idem (n : node) : hideSection (hideSection n) = hideSection n.
Proof. node_cases "" n. Qed.

Lemma hasId_updateNavLink (id x : string) (n : node) :
  hasId x (updateNavLink id n) = hasId x n.
Proof.
  unfold updateNavLink. destruct (inNavLinks n); [|reflexivity].
  now destruct (hrefIs _ _).
Qed.

Lemma hasId_classAdd (cls x : string) (n : node) :
  hasId x (classAdd cls n) = hasId x n.
Proof. reflexivity. Qed.

Lemma shown_idem (id : string) (doc : list node) :
  shown id (shown id doc) = shown id doc.
Proof.
  unfold shown. induction doc as [|n r IH]; [reflexivity|].
  simpl. rewrite hasId_hideSection.
  destruct (hasId id n) eqn:I; simpl.
  - rewrite hasId_hideSection, hasId_updateNavLink, hasId_classAdd,
      hasId_hideSection, I.
    simpl. rewrite show_twice. f_equal.
    rewrite !map_map. apply map_ext. intros m. apply hide_link_twice.
  - rewrite hasId_hideSection, hasId_updateNavLink, hasId_hideSection, I.
    simpl. now rewrite hide_link_twice, IH.
Qed.

Lemma getElementById_shown (id : string) (doc : list node) :
  getElementById id (map hideSection (shown id doc)) = None
  <-> getElementById id doc = None.
Proof.
  unfold getElementById, shown.
  induction doc as [|n r IH]; simpl; [tauto|].
  rewrite hasId_hideSection.
  destruct (hasId id n) eqn:I; simpl.
  - rewrite hasId_hideSection, hasId_updateNavLink, hasId_classAdd,
      hasId_hideSection, I. split; discriminate.
  - rewrite hasId_hideSection, hasId_updateNavLink, hasId_hideSection, I.
    exact IH.
Qed.

Lemma navigateDocument_idem (id : string) (doc : list node) :
  navigateDocument id (navigateDocument id doc) = navigateDocument id doc.
Proof.
  unfold navigateDocument at 2 3.
  rewrite getElementById_hidden.
  destruct (getElementById id doc) as [t|] eqn:F; simpl.
  - unfold navigateDocument.
    destruct (getElementById id (map hideSection (shown id doc))) eqn:G.
    + apply shown_idem.
    + apply (proj1 (getElementById_shown id doc)) in G. congruence.
  - unfold navigateDocument. rewrite !getElementById_hidden, F. simpl.
    rewrite map_map. apply map_ext, hideSection_idem.
Qed.

Lemma navigateToSection_document (id : string) (p : page) :
  navigateToSection id p
  = set_document (navigateDocument id (document p))
      (match getElementById id (document p) with
       | Some _ => set_currentSection id p
       | None => p
       end).
Proof.
  unfold navigateToSection, navigateDocument. simpl.
  rewrite getElementById_hidden.
  now destruct (getElementById id (document p)).
Qed.

Lemma getElementById_navigateDocument (id : string) (doc : list node) :
  getElementById id (navigateDocument id doc) = None
  <-> getElementById id doc = None.
Proof.
  unfold navigateDocument. rewrite getElementById_hidden.
  destruct (getElementById id doc) as [t|] eqn:F; simpl.
  - split; [|discriminate]. intros G. exfalso.
    assert (X : getElementById id (map hideSection (shown id doc)) = None).
    { rewrite getElementById_hidden, G. reflexivity. }
    apply (proj1 (getElementById_shown id doc)) in X. congruence.
  - rewrite getElementById_hidden, F. simpl. tauto.
Qed.

Lemma navigateToSection_again (id : string) (p : page) :
  navigateToSection id (navigateToSection id p) = navigateToSection id p.
Proof.
  rewrite (navigateToSection_document id (navigateToSection id p)).
  rewrite (navigateToSection_document id p). simpl.
  rewrite navigateDocument_idem.
  destruct (getElementById id (navigateDocument id (document p))) eqn:G;
    destruct (getElementById id (document p)) eqn:F; try reflexivity.
  apply (proj2 (getElementById_navigateDocument id (document p))) in F.
  congruence.
Qed.

(** X2. A click on a navigation link [#id] that is also an anchor runs two
    listeners and ends as one call of [navigateToSection id]; for the
    bare [#] the first listener still calls it, with the empty id. *)
Theorem navAnchorClick_once (id : string) (p : page) :
  Links.navAnchorClick ("#" +:+ id) p = navigateToSection id p.
Proof.
  unfold Links.navAnchorClick, Links.anchorClick, Links.navLinkClick. simpl.
  destruct (id =? "") eqn:E; [reflexivity|].
  apply navigateToSection_again.
Qed.

(** X1. A second call of [navigateToSection] for the same id changes
    nothing, whether or not the id exists and whatever the page is. *)
Theorem navigateToSection_idempotent (id : string) (p : page) :
  navigateToSection id (navigateToSection id p) = navigateToSection id p
  /\ Links.quickButtonClick id (Links.quickButtonClick id p)
     = Links.quickButtonClick id p.
Proof. split; apply navigateToSection_again. Qed.

End NavigationAgain.

(** ** What the commands and the listeners touch *)

Section Touch.

Lemma page_eta (p : page) :
  mkPage (state p) (document p) (output p) (terminalInput p) (matrixCanvas p)
         (rootStyle p) (bodyAnimation p) (headStyles p) (timers p) (konamiIndex p)
  = p.
Proof. now destruct p. Qed.

Lemma changeTheme_style (theme : string) (p : page) :
  changeTheme theme p
  = set_rootStyle (applyEntries (selectedThemeEntries theme) (rootStyle p)) p.
Proof.
  unfold changeTheme, applyEntries.
  generalize (selectedThemeEntries theme) as entries. intros entries. revert p.
  induction entries as [|e r IH]; intros p; simpl.
  - unfold set_rootStyle. now rewrite page_eta.
  - now rewrite IH.
Qed.

Lemma scheduleFrom_timers (msgs : list string) (index : Z) (p : page) :
  scheduleFrom index msgs p
  = Timers.set_timers (timers p ++ scheduled index msgs) p.
Proof.
  revert index p. induction msgs as [|m r IH]; intros index p; simpl.
  - rewrite app_nil_r. unfold Timers.set_timers. now rewrite page_eta.
  - rewrite IH. unfold Timers.set_timers, setTimeout. simpl.
    now rewrite <- app_assoc.
Qed.

Lemma document_displayOutput (v : value) (p : page) :
  document (displayOutput v p) = document p.
Proof. unfold displayOutput. now destruct (output p). Qed.

Lemma document_removeCommandOutputs (p : page) :
  document (removeCommandOutputs p) = document p.
Proof. unfold removeCommandOutputs. now destruct (output p). Qed.

Lemma document_toggleMatrixEffect (p : page) :
  document (toggleMatrixEffect p) = document p.
Proof. unfold toggleMatrixEffect. now destruct (matrixCanvas p). Qed.

Lemma document_navigateToSection (id : string) (p : page) :
  document (navigateToSection id p) = navigateDocument id (document p).
Proof. now rewrite navigateToSection_document. Qed.

(** Every command but [cd] leaves the elements of the document and the
    [state] object alone. *)
Lemma command_frame (name : string) (h : handler) :
  commands name = Some h -> name <> "cd" ->
  forall args p,
    document (snd (h args p)) = document p /\ state (snd (h args p)) = state p.
Proof.
  intros Hc Hn. revert Hc. unfold commands.
  repeat match goal with
         | |- (if ?b then _ else _) = _ -> _ =>
             let E := fresh "E" in
             destruct b eqn:E; [intros [= <-] args p | ]
         end;
    try discriminate;
    try (match goal with
         | H : (name =? "cd") = true |- _ =>
             apply String.eqb_eq in H; contradiction
         end);
    unfold clear, cls, clear, matrix, theme, hack, initiateHackingSequence; simpl;
    rewrite ?changeTheme_style, ?scheduleFrom_timers; simpl;
    rewrite ?document_removeCommandOutputs, ?state_removeCommandOutputs,
      ?document_toggleMatrixEffect, ?state_toggleMatrixEffect;
    split; reflexivity.
Qed.

Lemma cd_document (args : list string) (p : page) :
  exists ids, document (snd (cd args p)) = navigations ids (document p).
Proof.
  unfold cd. destruct (JS.arrayIncludes _ _); simpl.
  - exists [JS.interpolate (nth_error args 0)]. simpl.
    apply document_navigateToSection.
  - now exists [].
Qed.

Lemma executeCommand_document (input : string) (p : page) :
  exists ids,
    document (pageOf (executeCommand input p)) = navigations ids (document p).
Proof.
  unfold executeCommand.
  destruct (JS.split " " (JS.toLowerCase (JS.trim input))) as [|cmd args];
    [now exists []|].
  unfold commandsGet. destruct (commands cmd) as [h|] eqn:C.
  - simpl. destruct (String.eqb_spec cmd "cd") as [->|N].
    + injection C as <-. destruct (cd_document args p) as [ids H].
      exists ids. now destruct (cd args p).
    + exists []. destruct (command_frame cmd h C N args p) as [H _].
      now destruct (h args p).
  - exists []. destruct (cmd =? "constructor"); [reflexivity|].
    now destruct (cmd =? "__proto__").
Qed.

Lemma handleTerminalInput_document (e : KeyboardEvent) (p : page) :
  exists ids,
    document (pageOf (handleTerminalInput e p)) = navigations ids (document p).
Proof.
  unfold handleTerminalInput.
  destruct (key e =? "Enter").
  { destruct (JS.trim (terminalInput p) =? ""); [now exists []|].
    destruct (executeCommand_document (JS.trim (terminalInput p)) p) as [ids H].
    exists ids.
    destruct (executeCommand (JS.trim (terminalInput p)) p) as [out q|err q];
      simpl in *; [|exact H].
    now rewrite document_displayOutput. }
  exists [].
  destruct (key e =? "ArrowUp");
    [now destruct (historyIndex (state p) >? 0)%Z|].
  destruct (key e =? "ArrowDown"); [|reflexivity].
  now destruct (historyIndex (state p) <? historyLength p - 1)%Z.
Qed.

Lemma konamiListener_document (e : KeyboardEvent) (p : page) :
  document (konamiListener e p) = document p.
Proof.
  unfold konamiListener.
  destruct (nth_error konamiCode (konamiIndex p)); [|reflexivity].
  destruct (key e =? s); [|reflexivity].
  simpl. destruct (Nat.eqb _ _); [|reflexivity].
  unfold activateKonamiCode. simpl.
  apply (document_displayOutput _ (set_konamiIndex (S (konamiIndex p)) p)).
Qed.

Lemma navigations_app (a b : list string) (doc : list node) :
  navigations (a ++ b) doc = navigations b (navigations a doc).
Proof. apply fold_left_app. Qed.

Lemma keyboardShortcuts_document (e : KeyboardEvent) (p : page) :
  exists ids, document (keyboardShortcuts e p) = navigations ids (document p).
Proof.
  unfold keyboardShortcuts.
  set (p1 := if key e =? "Escape" then navigateToSection "home" p else p).
  set (p2 := if ctrlKey e && (key e =? "l") then removeCommandOutputs p1 else p1).
  assert (H1 : exists ids, document p1 = navigations ids (document p)).
  { unfold p1. destruct (key e =? "Escape"); [exists ["home"]|now exists []].
    simpl. apply document_navigateToSection. }
  assert (H2 : document p2 = document p1).
  { unfold p2. destruct (ctrlKey e && (key e =? "l")); [|reflexivity].
    apply document_removeCommandOutputs. }
  destruct H1 as [ids H1].
  assert (G : forall id, document (navigateToSection id p2)
                         = navigations (ids ++ [id]) (document p)).
  { intros id. rewrite navigations_app, <- H1, <- H2. simpl.
    apply document_navigateToSection. }
  destruct (negb (ctrlKey e) && negb (metaKey e) && negb (altKey e));
    [|exists ids; congruence].
  repeat match goal with
         | |- context [if ?b then _ else _] => destruct b; [eexists; apply G|]
         end.
  exists ids. congruence.
Qed.

Lemma step_document (ev : event) (p : page) :
  exists ids, document (step ev p) = navigations ids (document p).
Proof.
  destruct ev as [e|e|text|target]; simpl; unfold documentKeydown.
  - destruct (handleTerminalInput_document e p) as [a Ha].
    destruct (keyboardShortcuts_document e
                (konamiListener e (pageOf (handleTerminalInput e p)))) as [b Hb].
    exists (a ++ b). rewrite navigations_app, <- Ha, Hb.
    now rewrite konamiListener_document.
  - destruct (keyboardShortcuts_document e (konamiListener e p)) as [b Hb].
    exists b. now rewrite Hb, konamiListener_document.
  - now exists [].
  - exists [target]. simpl. apply document_navigateToSection.
Qed.

Lemma run_document (evs : list event) (p : page) :
  exists ids, document (run evs p) = navigations ids (document p).
Proof.
  revert p. induction evs as [|ev evs IH]; intros p; [now exists []|].
  rewrite run_cons. destruct (IH (step ev p)) as [b Hb].
  destruct (step_document ev p) as [a Ha].
  exists (a ++ b). now rewrite navigations_app, <- Ha.
Qed.

End Touch.

(** ** One section at a time *)

Section OneSection.

Lemma shown_at_most_one (id : string) (doc : list node) :
  LinksApart doc ->
  length (filter (fun n => inSections n && isActive n) (shown id doc)) <= 1.
Proof.
  unfold shown. induction doc as [|n r IH]; intros A; simpl; [lia|].
  rewrite hasId_hideSection.
  assert (Ar : LinksApart r) by (intros m Hm; apply A; now right).
  destruct (hasId id n); simpl.
  - rewrite (hidden_none_active id r Ar).
    destruct (_ && _); simpl; lia.
  - rewrite (hidden_not_active id (n :: r) n A (or_introl eq_refl)).
    now apply IH.
Qed.

Lemma navigateDocument_at_most_one (id : string) (doc : list node) :
  LinksApart doc ->
  length (filter (fun n => inSections n && isActive n) (navigateDocument id doc)) <= 1.
Proof.
  intros A. unfold navigateDocument.
  destruct (getElementById id (map hideSection doc)).
  - now apply shown_at_most_one.
  - rewrite hidden_no_active_section. simpl. lia.
Qed.

Lemma apart_hideSection (n : node) : apart (hideSection n) = apart n.
Proof. unfold hideSection. now destruct (inSections n) eqn:E. Qed.

Lemma apart_updateNavLink (id : string) (n : node) :
  apart (updateNavLink id n) = apart n.
Proof.
  unfold updateNavLink. destruct (inNavLinks n) eqn:E; [|reflexivity].
  now destruct (hrefIs _ _).
Qed.

Lemma forallb_map_same (f : node -> node) (doc : list node) :
  (forall n, apart (f n) = apart n) ->
  forallb apart (map f doc) = forallb apart doc.
Proof.
  intros H. induction doc as [|n r IH]; simpl; [reflexivity|].
  now rewrite H, IH.
Qed.

Lemma forallb_updateFirst_same (q : node -> bool) (f : node -> node)
    (doc : list node) :
  (forall n, apart (f n) = apart n) ->
  forallb apart (updateFirst q f doc) = forallb apart doc.
Proof.
  intros H. induction doc as [|n r IH]; simpl; [reflexivity|].
  destruct (q n); simpl; [now rewrite H | now rewrite IH].
Qed.

Lemma linksApart_navigateDocument (id : string) (doc : list node) :
  linksApartFromSections (navigateDocument id doc) = linksApartFromSections doc.
Proof.
  unfold navigateDocument, shown, linksApartFromSections.
  change (fun n => negb (inNavLinks n && inSections n)) with apart.
  destruct (getElementById id (map hideSection doc)).
  - rewrite (forallb_map_same _ _ (apart_updateNavLink id)).
    rewrite forallb_updateFirst_same by reflexivity.
    apply forallb_map_same, apart_hideSection.
  - apply forallb_map_same, apart_hideSection.
Qed.

Lemma navigations_at_most_one (ids : list string) (doc : list node) :
  linksApartFromSections doc = true ->
  length (filter (fun n => inSections n && isActive n) doc) <= 1 ->
  linksApartFromSections (navigations ids doc) = true
  /\ length (filter (fun n => inSections n && isActive n) (navigations ids doc)) <= 1.
Proof.
  revert doc. induction ids as [|id ids IH]; intros doc A L; [now split|].
  simpl. apply IH.
  - now rewrite linksApart_navigateDocument.
  - apply navigateDocument_at_most_one, linksApart_spec, A.
Qed.

(** X3. On a page whose navigation links are not sections and that starts
    with at most one active section, no sequence of key events, edits
    and clicks ever leaves two sections active. *)
Theorem single_active_section (evs : list event) (p : page) :
  linksApartFromSections (document p) = true ->
  length (activeSections p) <= 1 ->
  length (activeSections (run evs p)) <= 1
  /\ linksApartFromSections (document (run evs p)) = true.
Proof.
  intros A L. unfold activeSections in *.
  destruct (run_document evs p) as [ids ->].
  destruct (navigations_at_most_one ids (document p) A L). now split.
Qed.

(** The sample page, a digit typed in the field, a command and a click
    on a link to nowhere. *)
Lemma single_active_section_witness :
  linksApartFromSections (document Sample.page0) = true
  /\ length (activeSections Sample.page0) <= 1
  /\ length (activeSections
               (run ([KeydownInput (plainKey "3")] ++ enter "cd blog"
                     ++ [Click "nowhere"]) Sample.page0)) <= 1
  /\ linksApartFromSections
       (document (run ([KeydownInput (plainKey "3")] ++ enter "cd blog"
                       ++ [Click "nowhere"]) Sample.page0)) = true.
Proof.
  split; [reflexivity|]. split; [simpl; lia|].
  apply (single_active_section
           ([KeydownInput (plainKey "3")] ++ enter "cd blog" ++ [Click "nowhere"])
           Sample.page0); [reflexivity | simpl; lia].
Defined.



End OneSection.

(** ** More on the dispatch *)

Section DispatchAgain.

Lemma join_split (s : string) : JS.join " " (JS.split " " s) = s.
Proof.
  induction s as [|c r IH]; [reflexivity|].
  cbn [JS.split]. destruct (Ascii.eqb c " ") eqn:E.
  - apply Ascii.eqb_eq in E. subst c.
    destruct (JS.split " " r) as [|h t] eqn:S;
      [now apply split_nonempty in S|].
    cbn [JS.join]. cbn [JS.join] in IH. now rewrite IH.
  - destruct (JS.split " " r) as [|h t] eqn:S;
      [now apply split_nonempty in S|].
    cbn [JS.join] in *. destruct t; simpl in *; now rewrite IH.
Qed.

Lemma split_spaceless (s : string) : forallb spaceless (JS.split " " s) = true.
Proof.
  induction s as [|c r IH]; [reflexivity|].
  cbn [JS.split]. destruct (Ascii.eqb c " ") eqn:E.
  - exact IH.
  - destruct (JS.split " " r) as [|h t]; simpl in *.
    + unfold spaceless. simpl. now rewrite E.
    + unfold spaceless in *. simpl. now rewrite E.
Qed.

(** X5. Reading a line loses nothing: the command word and the arguments of
    [executeCommand] have no space in them, and put together again with
    single spaces they are the trimmed, lower-cased line. *)
Theorem executeCommand_reading (input : string) :
  exists cmd args,
    JS.split " " (JS.toLowerCase (JS.trim input)) = cmd :: args
    /\ JS.join " " (cmd :: args) = JS.toLowerCase (JS.trim input)
    /\ forallb spaceless (cmd :: args) = true.
Proof.
  destruct (JS.split " " (JS.toLowerCase (JS.trim input))) as [|cmd args] eqn:S;
    [now apply split_nonempty in S|].
  exists cmd, args. split; [reflexivity|].
  rewrite <- S. split; [apply join_split | apply split_spaceless].
Qed.

(** X6. A line whose command word is none of the eleven commands and
    neither [constructor] nor [__proto__] is answered with the fixed
    message, which names the word in lower case, and changes nothing on
    the page. *)
Theorem executeCommand_not_found (input : string) (p : page) (cmd : string)
    (args : list string) :
  JS.split " " (JS.toLowerCase (JS.trim input)) = cmd :: args ->
  commands cmd = None ->
  cmd <> "constructor" ->
  cmd <> "__proto__" ->
  executeCommand input p
  = Normal (VString ("Command not found: " +:+ cmd
                     +:+ ". Type 'help' for available commands.")) p
  /\ JS.includes cmd ("Command not found: " +:+ cmd
                      +:+ ". Type 'help' for available commands.") = true.
Proof.
  intros Hs Hc H1 H2. split.
  - apply (executeCommand_unknown input p cmd args Hs).
    unfold commandsGet. rewrite Hc.
    destruct (String.eqb_spec cmd "constructor"); [contradiction|].
    now destruct (String.eqb_spec cmd "__proto__").
  - apply (includes_append cmd "Command not found: ").
Qed.

(** A word in capitals that is no command. *)
Lemma executeCommand_not_found_witness :
  JS.split " " (JS.toLowerCase (JS.trim " SUDO rm ")) = "sudo" :: ["rm"]
  /\ commands "sudo" = None
  /\ "sudo" <> "constructor"
  /\ "sudo" <> "__proto__"
  /\ executeCommand " SUDO rm " Sample.page0
     = Normal (VString ("Command not found: " +:+ "sudo"
                        +:+ ". Type 'help' for available commands.")) Sample.page0
  /\ JS.includes "sudo" ("Command not found: " +:+ "sudo"
                         +:+ ". Type 'help' for available commands.") = true.
Proof.
  split; [reflexivity|]. split; [reflexivity|].
  split; [discriminate|]. split; [discriminate|].
  apply (executeCommand_not_found " SUDO rm " Sample.page0 "sudo" ["rm"]);
    [reflexivity | reflexivity | discriminate | discriminate].
Defined.

(** X7. [executeCommand] throws on exactly the lines whose command word is
    [__proto__], and then it has changed nothing. *)
Theorem executeCommand_throws_only_proto (input : string) (p : page) :
  ((exists e q, executeCommand input p = Throw e q)
   <-> exists args,
         JS.split " " (JS.toLowerCase (JS.trim input)) = "__proto__" :: args)
  /\ (forall e q, executeCommand input p = Throw e q -> q = p).
Proof.
  split; [apply executeCommand_throws|].
  unfold executeCommand.
  destruct (JS.split " " (JS.toLowerCase (JS.trim input))) as [|cmd args];
    [discriminate|].
  unfold commandsGet. destruct (commands cmd) as [h|].
  - simpl. destruct (h args p). discriminate.
  - destruct (cmd =? "constructor"); [discriminate|].
    destruct (cmd =? "__proto__"); [|discriminate].
    simpl. now intros e q [= _ <-].
Qed.

End DispatchAgain.

(** ** Theme, matrix canvas, transcript and timers *)

Section Effects.







Lemma isCommandOutput_outputLine (text : string) :
  isCommandOutput (outputLine text) = true.
Proof. reflexivity. Qed.

Lemma removeCommandOutputs_displayOutput (v : value) (p : page) :
  removeCommandOutputs (displayOutput v p) = removeCommandOutputs p.
Proof.
  unfold removeCommandOutputs, displayOutput.
  destruct (output p) as [children|] eqn:O; simpl; [|now rewrite O].
  rewrite filter_app. simpl. now rewrite app_nil_r.
Qed.

Lemma filter_twice {A : Type} (f : A -> bool) (l : list A) :
  filter f (filter f l) = filter f l.
Proof.
  induction l as [|x l IH]; simpl; [reflexivity|].
  destruct (f x) eqn:E; simpl; [rewrite E|]; now rewrite ?IH.
Qed.

(** X10. Removing the command outputs takes away whatever [displayOutput]
    added, however often it was called, keeps the other lines in their
    order, and a second removal changes nothing. *)
Theorem removeCommandOutputs_undoes_display (vs : list value) (p : page) :
  removeCommandOutputs (fold_left (fun p v => displayOutput v p) vs p)
  = removeCommandOutputs p
  /\ removeCommandOutputs (removeCommandOutputs p) = removeCommandOutputs p
  /\ (forall children, output p = Some children ->
        output (removeCommandOutputs p) = Some (bootLines children))
  /\ (output p = None -> removeCommandOutputs p = p).
Proof.
  split; [|split; [|split]].
  - revert p. induction vs as [|v vs IH]; intros p; simpl; [reflexivity|].
    now rewrite IH, removeCommandOutputs_displayOutput.
  - unfold removeCommandOutputs.
    destruct (output p) as [children|] eqn:O; simpl; [|now rewrite O].
    now rewrite filter_twice.
  - intros children O. unfold removeCommandOutputs. now rewrite O.
  - intros O. unfold removeCommandOutputs. now rewrite O.
Qed.

(** X11. Ctrl+L does what the [clear] command does to the transcript, and
    adds no line: exactly the boot lines are left. *)
Theorem ctrl_l_clears (e : KeyboardEvent) (p : page) (children : list line) :
  ctrlKey e = true ->
  key e = "l" ->
  output p = Some children ->
  keyboardShortcuts e p = snd (clear [] p)
  /\ output (keyboardShortcuts e p) = Some (bootLines children).
Proof.
  intros C K O. unfold keyboardShortcuts. rewrite C, K. simpl.
  split; [reflexivity|].
  unfold removeCommandOutputs. now rewrite O.
Qed.

(** Ctrl+L on the sample page after a command was answered. *)
Lemma ctrl_l_clears_witness :
  ctrlKey (mkKey "l" true false false) = true
  /\ key (mkKey "l" true false false) = "l"
  /\ output (run (enter "ls") Sample.page0)
     = Some [Sample.bootLine; outputLine "home/  about/  projects/  blog/  contact/"]
  /\ keyboardShortcuts (mkKey "l" true false false) (run (enter "ls") Sample.page0)
     = snd (clear [] (run (enter "ls") Sample.page0))
  /\ output (keyboardShortcuts (mkKey "l" true false false)
               (run (enter "ls") Sample.page0))
     = Some (bootLines [Sample.bootLine;
                        outputLine "home/  about/  projects/  blog/  contact/"]).
Proof.
  split; [reflexivity|]. split; [reflexivity|]. split; [reflexivity|].
  apply (ctrl_l_clears (mkKey "l" true false false) (run (enter "ls") Sample.page0)
           [Sample.bootLine; outputLine "home/  about/  projects/  blog/  contact/"]);
    reflexivity.
Defined.

Lemma removeNth_app {A : Type} (l r : list A) (x : A) :
  Timers.removeNth (length l) (l ++ x :: r) = l ++ r.
Proof. induction l as [|y l IH]; simpl; [reflexivity | now rewrite IH]. Qed.

Lemma nth_error_middle {A : Type} (l r : list A) (x : A) :
  nth_error (l ++ x :: r) (length l) = Some x.
Proof. induction l as [|y l IH]; simpl; [reflexivity | exact IH]. Qed.

Lemma displayOutput_set_timers (v : value) (t : list (Z * callback)) (p : page) :
  displayOutput v (Timers.set_timers t p) = Timers.set_timers t (displayOutput v p).
Proof. unfold displayOutput. simpl. now destruct (output p). Qed.

Lemma timers_displayOutput (v : value) (p : page) :
  timers (displayOutput v p) = timers p.
Proof. unfold displayOutput. now destruct (output p). Qed.

Lemma set_timers_twice (a b : list (Z * callback)) (p : page) :
  Timers.set_timers a (Timers.set_timers b p) = Timers.set_timers a p.
Proof. reflexivity. Qed.

Lemma set_timers_same (t : list (Z * callback)) (q : page) :
  timers q = t -> q = Timers.set_timers t q.
Proof. destruct q. simpl. now intros <-. Qed.

Lemma timers_fold_displayOutput (msgs : list string) (p : page) :
  timers (fold_left (fun p m => displayOutput (VString m) p) msgs p) = timers p.
Proof.
  revert p. induction msgs as [|m r IH]; intros p; simpl; [reflexivity|].
  now rewrite IH, timers_displayOutput.
Qed.

Lemma fire_scheduled (msgs : list string) (index : Z) (l : list (Z * callback))
    (p : page) :
  Nat.iter (length msgs) (Timers.fire (length l))
           (Timers.set_timers (l ++ scheduled index msgs) p)
  = Timers.set_timers l
      (fold_left (fun p m => displayOutput (VString m) p) msgs p).
Proof.
  revert index p. induction msgs as [|m r IH]; intros index p.
  - simpl. now rewrite app_nil_r.
  - cbn [length scheduled fold_left]. rewrite Nat.iter_succ_r.
    unfold Timers.fire at 2. cbn [timers Timers.set_timers].
    rewrite nth_error_middle, removeNth_app.
    cbn [Timers.runCallback].
    rewrite set_timers_twice, displayOutput_set_timers.
    apply IH.
Qed.

(** X12. The hack command answers at once and leaves five timers, due after
    0, 1, 2, 3 and 4 seconds; once they have run in that order the
    transcript has the five messages, in order, after the lines it had,
    and the page is otherwise as before. *)
Theorem hack_sequence (p : page) :
  executeCommand "hack" p
  = Normal (VString "INITIATING HACK SEQUENCE...")
           (Timers.set_timers (timers p ++ scheduled 0 hackMessages) p)
  /\ map fst (scheduled 0 hackMessages) = [0; 1000; 2000; 3000; 4000]%Z
  /\ Nat.iter 5 (Timers.fire (length (timers p))) (pageOf (executeCommand "hack" p))
     = fold_left (fun p m => displayOutput (VString m) p) hackMessages p
  /\ (forall children, output p = Some children ->
        output (Nat.iter 5 (Timers.fire (length (timers p)))
                         (pageOf (executeCommand "hack" p)))
        = Some (children ++ map outputLine hackMessages)).
Proof.
  assert (E : executeCommand "hack" p
              = Normal (VString "INITIATING HACK SEQUENCE...")
                  (Timers.set_timers (timers p ++ scheduled 0 hackMessages) p)).
  { change (executeCommand "hack" p)
      with (Normal (VString "INITIATING HACK SEQUENCE...") (scheduleFrom 0 hackMessages p)).
    now rewrite scheduleFrom_timers. }
  assert (F : Nat.iter 5 (Timers.fire (length (timers p))) (pageOf (executeCommand "hack" p))
              = fold_left (fun p m => displayOutput (VString m) p) hackMessages p).
  { rewrite E. cbn [pageOf]. change 5 with (length hackMessages).
    rewrite (fire_scheduled hackMessages 0 (timers p) p).
    symmetry. apply set_timers_same. apply timers_fold_displayOutput. }
  split; [exact E|]. split; [reflexivity|]. split; [exact F|].
  intros children O. rewrite F. simpl. unfold displayOutput. simpl.
  rewrite O. simpl. now rewrite <- !app_assoc.
Qed.

End Effects.

(** ** More on the input line *)

Section InputAgain.

Local Open Scope Z_scope.

Lemma trimStart_blank (s : string) : blank s = true -> JS.trimStart s = "".
Proof.
  unfold blank. induction s as [|c r IH]; simpl; [reflexivity|].
  destruct (JS.isWhiteSpace c); [exact IH | discriminate].
Qed.

Lemma trim_blank (s : string) : JS.trim s = "" <-> blank s = true.
Proof.
  split.
  - unfold JS.trim, blank. induction s as [|c r IH]; simpl; [reflexivity|].
    destruct (JS.isWhiteSpace c) eqn:W; [exact IH|].
    simpl. destruct (JS.trimEnd r); [now rewrite W | discriminate].
  - intros B. unfold JS.trim. now rewrite trimStart_blank.
Qed.

(** X13. Enter does nothing at all when the field holds only white space,
    and when the line makes [executeCommand] throw the handler stops
    there: nothing is displayed, the history and the field stay as they
    are. *)
Theorem enter_without_effect (e : KeyboardEvent) (p : page) :
  key e = "Enter"%string ->
  (blank (terminalInput p) = true -> handleTerminalInput e p = Normal tt p)
  /\ (forall args,
        JS.split " " (JS.toLowerCase (JS.trim (terminalInput p)))
        = "__proto__"%string :: args ->
        exists err, handleTerminalInput e p = Throw err p).
Proof.
  intros K. unfold handleTerminalInput. rewrite K. simpl. split.
  - intros B. apply trim_blank in B. now rewrite B.
  - intros args S.
    destruct (JS.trim (terminalInput p) =? "")%string eqn:E.
    { apply String.eqb_eq in E. rewrite E in S. discriminate S. }
    unfold executeCommand. rewrite trim_idem, S. simpl. eauto.
Qed.

(** Enter on a field of blanks, on the sample page. *)
Lemma enter_without_effect_witness :
  key (plainKey "Enter") = "Enter"%string
  /\ (blank (terminalInput (set_terminalInput "   " Sample.page0)) = true ->
      handleTerminalInput (plainKey "Enter") (set_terminalInput "   " Sample.page0)
      = Normal tt (set_terminalInput "   " Sample.page0))
  /\ (forall args,
        JS.split " " (JS.toLowerCase
                        (JS.trim (terminalInput (set_terminalInput "   " Sample.page0))))
        = "__proto__"%string :: args ->
        exists err,
          handleTerminalInput (plainKey "Enter") (set_terminalInput "   " Sample.page0)
          = Throw err (set_terminalInput "   " Sample.page0)).
Proof.
  split; [reflexivity|].
  apply (enter_without_effect (plainKey "Enter") (set_terminalInput "   " Sample.page0)).
  reflexivity.
Defined.

Lemma handleTerminalInput_pushes (e : KeyboardEvent) (p : page) :
  commandHistory (state (pageOf (handleTerminalInput e p)))
  = commandHistory (state p)
  \/ (JS.trim (terminalInput p) <> ""%string
      /\ commandHistory (state (pageOf (handleTerminalInput e p)))
         = commandHistory (state p) ++ [JS.trim (terminalInput p)]).
Proof.
  unfold handleTerminalInput.
  destruct (key e =? "Enter")%string.
  { destruct (String.eqb_spec (JS.trim (terminalInput p)) ""); [now left|].
    pose proof (history_executeCommand (JS.trim (terminalInput p)) p) as H.
    destruct (executeCommand (JS.trim (terminalInput p)) p) as [out q|err q];
      simpl in H; unfold history in H; injection H as Hh _; [|now left].
    right. split; [assumption|]. simpl.
    now rewrite state_displayOutput, Hh. }
  left.
  destruct (key e =? "ArrowUp")%string;
    [now destruct (historyIndex (state p) >? 0)|].
  destruct (key e =? "ArrowDown")%string; [|reflexivity].
  now destruct (historyIndex (state p) <? historyLength p - 1).
Qed.

Lemma step_pushes (ev : event) (p : page) :
  commandHistory (state (step ev p)) = commandHistory (state p)
  \/ (JS.trim (terminalInput p) <> ""%string
      /\ commandHistory (state (step ev p))
         = commandHistory (state p) ++ [JS.trim (terminalInput p)]).
Proof.
  destruct (step_history ev p) as [(e & -> & H)|H].
  - unfold history in H. injection H as Hh _. simpl in *. rewrite Hh.
    apply handleTerminalInput_pushes.
  - left. unfold history in H. now injection H.
Qed.

(** X14. Whatever happens on the page, the history only ever holds trimmed
    lines that are not empty. *)
Theorem history_entries_trimmed (evs : list event) (p : page) :
  trimmedEntries (commandHistory (state p)) = true ->
  trimmedEntries (commandHistory (state (run evs p))) = true.
Proof.
  revert p. induction evs as [|ev evs IH]; intros p T; [exact T|].
  rewrite run_cons. apply IH.
  destruct (step_pushes ev p) as [->|[N ->]]; [exact T|].
  unfold trimmedEntries in *. rewrite forallb_app, T. simpl.
  rewrite trim_idem, String.eqb_refl.
  destruct (String.eqb_spec (JS.trim (terminalInput p)) ""); [contradiction|].
  reflexivity.
Qed.

(** Two lines typed with blanks around them on the sample page. *)
Lemma history_entries_trimmed_witness :
  trimmedEntries (commandHistory (state Sample.page0)) = true
  /\ trimmedEntries
       (commandHistory (state (run (enter "  ls  " ++ enter " whoami") Sample.page0)))
     = true.
Proof.
  split; [reflexivity|].
  apply (history_entries_trimmed (enter "  ls  " ++ enter " whoami") Sample.page0).
  reflexivity.
Defined.

(** A key other than the last of the code only moves the cursor of the
    Konami watcher. *)
Lemma konamiListener_moves (e : KeyboardEvent) (q : page) :
  key e <> "a"%string -> exists k, konamiListener e q = set_konamiIndex k q.
Proof.
  intros N. unfold konamiListener.
  destruct (nth_error konamiCode (konamiIndex q)) as [x|] eqn:E; [|eauto].
  destruct (String.eqb_spec (key e) x) as [K|]; [|eauto].
  simpl. destruct (Nat.eqb_spec (konamiIndex q) 9) as [L|]; [|eauto].
  exfalso. rewrite L in E. simpl in E.
  injection E as E. apply N. congruence.
Qed.

Lemma step_arrowUp (p : page) :
  exists k,
    step arrowUp p
    = set_konamiIndex k (pageOf (handleTerminalInput (plainKey "ArrowUp") p)).
Proof.
  unfold arrowUp, step, documentKeydown.
  destruct (konamiListener_moves (plainKey "ArrowUp")
              (pageOf (handleTerminalInput (plainKey "ArrowUp") p))) as [k ->];
    [discriminate|].
  now exists k.
Qed.

Lemma step_arrowDown (p : page) :
  exists k,
    step arrowDown p
    = set_konamiIndex k (pageOf (handleTerminalInput (plainKey "ArrowDown") p)).
Proof.
  unfold arrowDown, step, documentKeydown.
  destruct (konamiListener_moves (plainKey "ArrowDown")
              (pageOf (handleTerminalInput (plainKey "ArrowDown") p))) as [k ->];
    [discriminate|].
  now exists k.
Qed.

Lemma historyEntry_in_range (p : page) :
  0 <= historyIndex (state p) < historyLength p ->
  nth_error (commandHistory (state p)) (Z.to_nat (historyIndex (state p)))
  = Some (historyEntry p).
Proof.
  unfold historyEntry, historyLength. intros [L U].
  destruct (historyIndex (state p) <? 0) eqn:E; [apply Z.ltb_lt in E; lia|].
  destruct (nth_error (commandHistory (state p)) (Z.to_nat (historyIndex (state p))))
    as [x|] eqn:N; [reflexivity|].
  apply nth_error_None in N. lia.
Qed.

Lemma history_parts (p : page) (h : list string) (i : Z) :
  history p = (h, i) -> commandHistory (state p) = h /\ historyIndex (state p) = i.
Proof. unfold history. now intros [= -> ->]. Qed.

(** One ArrowUp. *)
Lemma arrowUp_once (p : page) :
  history (step arrowUp p)
  = (commandHistory (state p),
     if historyIndex (state p) >? 0 then historyIndex (state p) - 1
     else historyIndex (state p))
  /\ (0 < historyIndex (state p) <= historyLength p ->
      nth_error (commandHistory (state p)) (Z.to_nat (historyIndex (state p) - 1))
      = Some (terminalInput (step arrowUp p)))
  /\ (historyIndex (state p) <= 0 ->
      terminalInput (step arrowUp p) = terminalInput p).
Proof.
  destruct (step_arrowUp p) as [k ->].
  unfold handleTerminalInput. simpl.
  destruct (historyIndex (state p) >? 0) eqn:G; simpl.
  - apply Z.gtb_lt in G. split; [reflexivity|]. split; [|lia].
    intros R.
    apply (historyEntry_in_range (set_historyIndex (historyIndex (state p) - 1) p)).
    unfold historyLength in *. simpl. lia.
  - split; [reflexivity|]. split; [|reflexivity].
    intros R. assert (~ 0 < historyIndex (state p)) by (rewrite <- Z.gtb_lt; congruence).
    lia.
Qed.

(** One ArrowDown. *)
Lemma arrowDown_once (p : page) :
  history (step arrowDown p)
  = (commandHistory (state p),
     if historyIndex (state p) <? historyLength p - 1 then historyIndex (state p) + 1
     else historyLength p)
  /\ (-1 <= historyIndex (state p) < historyLength p - 1 ->
      nth_error (commandHistory (state p)) (Z.to_nat (historyIndex (state p) + 1))
      = Some (terminalInput (step arrowDown p)))
  /\ (historyLength p - 1 <= historyIndex (state p) ->
      terminalInput (step arrowDown p) = ""%string).
Proof.
  destruct (step_arrowDown p) as [k ->].
  unfold handleTerminalInput. simpl.
  destruct (historyIndex (state p) <? historyLength p - 1) eqn:G; simpl.
  - apply Z.ltb_lt in G. split; [reflexivity|]. split; [|lia].
    intros R.
    apply (historyEntry_in_range (set_historyIndex (historyIndex (state p) + 1) p)).
    unfold historyLength in *. simpl. lia.
  - apply Z.ltb_ge in G. split; [reflexivity|]. split; [lia | reflexivity].
Qed.

Lemma arrowUp_times (k : nat) (p : page) :
  0 <= historyIndex (state p) ->
  history (presses k arrowUp p)
  = (commandHistory (state p), Z.max 0 (historyIndex (state p) - Z.of_nat k)).
Proof.
  intros L. induction k as [|k IH].
  - simpl. unfold history. f_equal. lia.
  - unfold presses in *.
    change (Nat.iter (S k) (step arrowUp) p)
      with (step arrowUp (Nat.iter k (step arrowUp) p)).
    destruct (arrowUp_once (Nat.iter k (step arrowUp) p)) as [H _].
    rewrite H. unfold history in IH. injection IH as Hh Hi.
    rewrite Hh, Hi. f_equal.
    destruct (Z.max 0 (historyIndex (state p) - Z.of_nat k) >? 0) eqn:G.
    + apply Z.gtb_lt in G. lia.
    + assert (~ 0 < Z.max 0 (historyIndex (state p) - Z.of_nat k))
        by (rewrite <- Z.gtb_lt; congruence). lia.
Qed.

(** X15. History recall in general: with the cursor past the last entry, as
    every Enter leaves it, [k] presses of ArrowUp put the [k]-th entry
    from the end into the field, for every [k] up to the length of the
    history; further presses stay at the oldest entry. *)
Theorem arrow_up_recalls (k : nat) (p : page) :
  historyIndex (state p) = historyLength p ->
  (1 <= k <= length (commandHistory (state p)))%nat ->
  nth_error (commandHistory (state p)) (length (commandHistory (state p)) - k)
  = Some (terminalInput (presses k arrowUp p))
  /\ history (presses k arrowUp p)
     = (commandHistory (state p), historyLength p - Z.of_nat k)
  /\ forall j, (length (commandHistory (state p)) <= j)%nat ->
       historyIndex (state (presses j arrowUp p)) = 0.
Proof.
  intros F [K1 K2]. unfold historyLength in *.
  assert (L : 0 <= historyIndex (state p)) by lia.
  split; [|split].
  - destruct k as [|k]; [lia|].
    unfold presses.
    change (Nat.iter (S k) (step arrowUp) p)
      with (step arrowUp (Nat.iter k (step arrowUp) p)).
    pose proof (arrowUp_times k p L) as T. unfold presses in T.
    destruct (arrowUp_once (Nat.iter k (step arrowUp) p)) as (_ & H & _).
    unfold history in T. injection T as Th Ti.
    unfold historyLength in H. rewrite Th, Ti in H.
    rewrite <- H by lia. f_equal. lia.
  - rewrite (arrowUp_times k p L). f_equal. lia.
  - intros j J. pose proof (arrowUp_times j p L) as T.
    unfold history in T. injection T as _ Ti. rewrite Ti. lia.
Qed.

(** Three commands on the sample page and two presses. *)
Lemma arrow_up_recalls_witness :
  historyIndex (state afterThree) = historyLength afterThree
  /\ (1 <= 2 <= length (commandHistory (state afterThree)))%nat
  /\ nth_error (commandHistory (state afterThree))
               (length (commandHistory (state afterThree)) - 2)
     = Some (terminalInput (presses 2 arrowUp afterThree))
  /\ history (presses 2 arrowUp afterThree)
     = (commandHistory (state afterThree), historyLength afterThree - Z.of_nat 2)
  /\ forall j, (length (commandHistory (state afterThree)) <= j)%nat ->
       historyIndex (state (presses j arrowUp afterThree)) = 0.
Proof.
  split; [reflexivity|]. split; [vm_compute; lia|].
  apply (arrow_up_recalls 2 afterThree); [reflexivity | vm_compute; lia].
Defined.

(** X16. ArrowDown takes back an ArrowUp: from a cursor inside the history
    the pair leaves the cursor where it was and the field shows the
    entry under it, or is empty when the cursor is past the last entry.
    At the ends the keys are clamped: ArrowUp at the oldest entry
    changes neither field nor history, and ArrowDown at or past the last
    entry empties the field, typed text included. *)
Theorem arrow_up_then_down (p : page) :
  0 < historyIndex (state p) <= historyLength p ->
  history (step arrowDown (step arrowUp p)) = history p
  /\ (historyIndex (state p) < historyLength p ->
      nth_error (commandHistory (state p)) (Z.to_nat (historyIndex (state p)))
      = Some (terminalInput (step arrowDown (step arrowUp p))))
  /\ (historyIndex (state p) = historyLength p ->
      terminalInput (step arrowDown (step arrowUp p)) = ""%string)
  /\ (forall q, historyIndex (state q) <= 0 ->
        history (step arrowUp q) = history q
        /\ terminalInput (step arrowUp q) = terminalInput q)
  /\ (forall q, historyLength q - 1 <= historyIndex (state q) ->
        historyIndex (state (step arrowDown q)) = historyLength q
        /\ terminalInput (step arrowDown q) = ""%string).
Proof.
  intros [L U].
  destruct (arrowUp_once p) as (Hu & _ & _).
  destruct (arrowDown_once (step arrowUp p)) as (Hd & Fd & Ed).
  apply history_parts in Hu. destruct Hu as [Uh Ui].
  assert (G : (historyIndex (state p) >? 0) = true) by (apply Z.gtb_lt; lia).
  rewrite G in Ui. unfold historyLength in *. rewrite Uh, Ui in *.
  split; [|split; [|split; [|split]]].
  - rewrite Hd. unfold history. f_equal.
    destruct (historyIndex (state p) - 1 <? Z.of_nat (length (commandHistory (state p))) - 1)
      eqn:E; [lia|]. apply Z.ltb_ge in E. lia.
  - intros S. rewrite <- Fd by lia. f_equal. lia.
  - intros S. apply Ed. lia.
  - intros q Q. destruct (arrowUp_once q) as (H & _ & T).
    split; [|now apply T]. rewrite H.
    destruct (historyIndex (state q) >? 0) eqn:E; [apply Z.gtb_lt in E; lia|].
    reflexivity.
  - intros q Q. destruct (arrowDown_once q) as (H & _ & T).
    split; [|now apply T]. apply history_parts in H. destruct H as [_ Hi].
    rewrite Hi. unfold historyLength in *.
    destruct (historyIndex (state q) <? Z.of_nat (length (commandHistory (state q))) - 1)
      eqn:E; [apply Z.ltb_lt in E; lia | reflexivity].
Qed.

(** After two commands on the sample page. *)
Lemma arrow_up_then_down_witness :
  0 < historyIndex (state afterTwo) <= historyLength afterTwo
  /\ history (step arrowDown (step arrowUp afterTwo)) = history afterTwo
  /\ (historyIndex (state afterTwo) < historyLength afterTwo ->
      nth_error (commandHistory (state afterTwo))
                (Z.to_nat (historyIndex (state afterTwo)))
      = Some (terminalInput (step arrowDown (step arrowUp afterTwo))))
  /\ (historyIndex (state afterTwo) = historyLength afterTwo ->
      terminalInput (step arrowDown (step arrowUp afterTwo)) = ""%string)
  /\ (forall q, historyIndex (state q) <= 0 ->
        history (step arrowUp q) = history q
        /\ terminalInput (step arrowUp q) = terminalInput q)
  /\ (forall q, historyLength q - 1 <= historyIndex (state q) ->
        historyIndex (state (step arrowDown q)) = historyLength q
        /\ terminalInput (step arrowDown q) = ""%string).
Proof.
  split; [vm_compute; split; [reflexivity | discriminate]|].
  apply (arrow_up_then_down afterTwo).
  vm_compute; split; [reflexivity | discriminate].
Defined.

End InputAgain.

(** ** More on the Konami code *)

Section KonamiAgain.


Lemma timers_activateKonamiCode (p : page) :
  timers (activateKonamiCode p) = timers p ++ [(10000%Z, CallKonamiEnd)].
Proof. unfold activateKonamiCode. simpl. now rewrite timers_displayOutput. Qed.








End KonamiAgain.

(** ** The mobile menu *)

Section MobileMenu.

Lemma contains_toggle (cls : string) (l : list string) :
  contains cls (Menu.toggle cls l) = negb (contains cls l).
Proof.
  unfold Menu.toggle. destruct (contains cls l) eqn:E; simpl.
  - apply contains_remove.
  - apply contains_add.
Qed.

(** X18. The two scripts toggle the menu in the same way.  A click on the
    button flips the menu, a click outside closes it, a click inside
    leaves it; after a click on the button or outside, [aria-expanded]
    tells whether the menu is open, and once it does, it does so after
    every click. *)
Theorem menu_aria_in_step (c : Menu.click) (m : Menu.menu) :
  Menu.menuToggleClick m = Menu.navToggleClick m
  /\ Menu.isOpen (Menu.clicked Menu.OnToggle m) = negb (Menu.isOpen m)
  /\ Menu.isOpen (Menu.clicked Menu.Outside m) = false
  /\ Menu.clicked Menu.InMenu m = m
  /\ (c <> Menu.InMenu -> Menu.inStep (Menu.clicked c m) = true)
  /\ (Menu.inStep m = true -> Menu.inStep (Menu.clicked c m) = true).
Proof.
  assert (T : Menu.isOpen (Menu.clicked Menu.OnToggle m) = negb (Menu.isOpen m))
    by apply contains_toggle.
  assert (O : Menu.isOpen (Menu.clicked Menu.Outside m) = false)
    by apply contains_remove.
  assert (S : forall c', c' <> Menu.InMenu -> Menu.inStep (Menu.clicked c' m) = true).
  { intros c' N. unfold Menu.inStep. destruct c'; [| contradiction |].
    - simpl. apply String.eqb_refl.
    - rewrite O. reflexivity. }
  split; [|split; [exact T|split; [exact O|split; [reflexivity|split; [apply S|]]]]].
  - unfold Menu.menuToggleClick, Menu.navToggleClick.
    now rewrite contains_toggle.
  - intros I. destruct c; [apply S; discriminate | exact I | apply S; discriminate].
Qed.

End MobileMenu.

(** ** Dark mode *)

Section Dark.

Import DarkMode.

Lemma isDark_toggle (t : theming) :
  isDark (themeToggleClick t) = negb (isDark t)
  /\ storedTheme (themeToggleClick t) = Some (storedFor (isDark (themeToggleClick t))).
Proof.
  unfold themeToggleClick. destruct (isDark t) eqn:D; unfold isDark; simpl.
  - now rewrite contains_remove.
  - now rewrite contains_add.
Qed.

Lemma happenAll_stored (hs : list happening) (t : theming) :
  storedTheme t = Some (storedFor (isDark t)) ->
  isDark (happenAll hs t)
  = xorb (Nat.odd (length (filter isToggle hs))) (isDark t)
  /\ storedTheme (happenAll hs t) = Some (storedFor (isDark (happenAll hs t))).
Proof.
  revert t. induction hs as [|h hs IH]; intros t S; simpl.
  - split; [now destruct (isDark t) | exact S].
  - destruct h as [|matches]; simpl.
    + destruct (isDark_toggle t) as [D S'].
      destruct (IH (themeToggleClick t) S') as [I1 I2].
      split; [|exact I2]. rewrite I1, D, Nat.odd_succ, <- Nat.negb_odd.
      now destruct (Nat.odd _), (isDark t).
    + unfold prefersChange. rewrite S. now apply IH.
Qed.

(** X19. The choice of the user wins.  A click on the switch flips the dark
    class of the root and stores the new mode; from then on a change of
    the system preference does nothing, so after any further clicks and
    preference changes the mode is the one chosen, flipped once per
    click, and the stored theme names it.  Before the first click a
    preference change sets the mode to the preference. *)
Theorem dark_mode_choice_wins (hs : list happening) (t : theming) (matches : bool) :
  isDark (themeToggleClick t) = negb (isDark t)
  /\ isDark (happenAll hs (themeToggleClick t))
     = xorb (Nat.odd (length (filter isToggle hs))) (negb (isDark t))
  /\ storedTheme (happenAll hs (themeToggleClick t))
     = Some (storedFor (isDark (happenAll hs (themeToggleClick t))))
  /\ prefersChange matches (themeToggleClick t) = themeToggleClick t
  /\ (storedTheme t = None ->
      isDark (prefersChange matches t) = matches
      /\ storedTheme (prefersChange matches t) = None).
Proof.
  destruct (isDark_toggle t) as [D S].
  destruct (happenAll_stored hs (themeToggleClick t) S) as [I1 I2].
  split; [exact D|]. split; [now rewrite I1, D|]. split; [exact I2|].
  split.
  - unfold prefersChange. now rewrite S.
  - intros N. unfold prefersChange. rewrite N.
    destruct matches; unfold isDark; simpl; split; try reflexivity.
    + apply contains_add.
    + apply contains_remove.
Qed.

End Dark.

(** ** Lazy images *)

Section LazyImages.

Import Images.

Lemma load_idem (i : image) : load (load i) = load i.
Proof.
  unfold load. destruct (hasDataSrc i) eqn:H; [reflexivity|]. now rewrite H.
Qed.

Lemma nth_error_update (n i : nat) (f : image -> image) (imgs : list image) :
  nth_error (update n f imgs) i
  = if Nat.eqb n i then option_map f (nth_error imgs i) else nth_error imgs i.
Proof.
  revert n i. induction imgs as [|x r IH]; intros [|n] [|i]; simpl;
    try reflexivity.
  - now destruct (Nat.eqb n i).
  - apply IH.
Qed.

Lemma nth_error_onIntersection (entries : list entry) (imgs : list image) (i : nat) :
  nth_error (onIntersection entries imgs) i
  = option_map (fun img => if reported entries i then load img else img)
               (nth_error imgs i).
Proof.
  unfold onIntersection. revert imgs.
  induction entries as [|e r IH]; intros imgs; simpl.
  - now destruct (nth_error imgs i).
  - rewrite IH. unfold onEntry.
    destruct (isIntersecting e); simpl; [|reflexivity].
    rewrite nth_error_update.
    destruct (Nat.eqb (target e) i); simpl; [|reflexivity].
    destruct (nth_error imgs i) as [img|]; simpl; [|reflexivity].
    destruct (reported r i); [now rewrite load_idem | reflexivity].
Qed.

Lemma nth_error_same {A : Type} (l l' : list A) :
  (forall i, nth_error l i = nth_error l' i) -> l = l'.
Proof.
  revert l'. induction l as [|x l IH]; intros [|y l'] H.
  - reflexivity.
  - specialize (H 0). discriminate H.
  - specialize (H 0). discriminate H.
  - pose proof (H 0) as H0. simpl in H0. injection H0 as ->.
    f_equal. apply IH. intros i. apply (H (S i)).
Qed.

(** X20. After the callback of the observer an image is loaded exactly when
    some entry reported it intersecting and it had a non-empty
    [data-src]: then its [src] is that value, the attribute is gone and
    the image is no longer observed.  Every other image is as it was,
    and the same entries a second time change nothing. *)
Theorem lazy_images_load_once (entries : list entry) (imgs : list image) (i : nat) :
  nth_error (onIntersection entries imgs) i
  = option_map (fun img => if reported entries i then load img else img)
               (nth_error imgs i)
  /\ onIntersection entries (onIntersection entries imgs)
     = onIntersection entries imgs
  /\ forall img, settled img (load img)
                 /\ (hasDataSrc img = false -> load img = img)
                 /\ hasDataSrc (load img) = false.
Proof.
  split; [apply nth_error_onIntersection|]. split.
  - apply nth_error_same. intros j.
    rewrite !nth_error_onIntersection.
    destruct (nth_error imgs j) as [img|]; simpl; [|reflexivity].
    destruct (reported entries j); [now rewrite load_idem | reflexivity].
  - intros img. unfold settled, load, hasDataSrc.
    destruct (dataSrc img) as [d|] eqn:D; simpl.
    + destruct (String.eqb_spec d ""); simpl.
      * rewrite D. simpl. subst d. split; [now left|]. split; reflexivity.
      * split; [right; exists d; now repeat split|]. split; [discriminate|reflexivity].
    + rewrite D. split; [now left|]. split; reflexivity.
Qed.

End LazyImages.

(** ** The typing animation *)

Section TypingAnimation.

Import Typing.
Local Open Scope Z_scope.

Ltac animate :=
  cbn [pending earliest nth_error Timers.removeNth runTask type revealLine
       index textContent outputLines now app setTimeout].

Lemma tick_typed (s shown : string) (lines : list (list string)) (k : nat) :
  (k < String.length s)%nat ->
  tick (Some s) (typed s shown lines k) = typed s shown lines (S k).
Proof.
  intros L. unfold tick, typed. animate.
  apply Nat.ltb_lt in L. rewrite L.
  unfold setTimeout. animate.
  replace (k + 1)%nat with (S k) by lia.
  f_equal.
  - destruct k; lia.
  - do 2 f_equal. destruct k; lia.
Qed.

Lemma iter_typed (s shown : string) (lines : list (list string)) (k : nat) :
  (k <= String.length s)%nat ->
  Nat.iter k (tick (Some s)) (initTypingAnimation (start shown lines))
  = typed s shown lines k.
Proof.
  induction k as [|k IH]; intros L; [reflexivity|].
  change (Nat.iter (S k) (tick (Some s)) (initTypingAnimation (start shown lines)))
    with (tick (Some s)
            (Nat.iter k (tick (Some s)) (initTypingAnimation (start shown lines)))).
  rewrite IH by lia. apply tick_typed. lia.
Qed.

Lemma scheduleLines_queue (n i : nat) (a : animation) :
  scheduleLines i n a
  = mkAnimation (index a) (textContent a) (outputLines a) (now a)
                (pending a ++ revealQueue (now a) i n).
Proof.
  revert i a. induction n as [|n IH]; intros i a; simpl.
  - unfold revealQueue. simpl. rewrite app_nil_r. now destruct a.
  - rewrite IH. unfold setTimeout, revealQueue. simpl.
    now rewrite <- app_assoc.
Qed.

Lemma substring_all (s : string) : substring 0 (String.length s) s = s.
Proof. induction s as [|c r IH]; simpl; [reflexivity | now rewrite IH]. Qed.

(** The two ticks between the last character and the reveal. *)
Lemma tick_typed_all (s shown : string) (lines : list (list string)) :
  tick (Some s) (tick (Some s) (typed s shown lines (String.length s)))
  = revealing s shown lines (1200 + 100 * Z.of_nat (String.length s)) 0.
Proof.
  unfold tick at 2. unfold typed. animate.
  rewrite Nat.ltb_irrefl. unfold setTimeout. animate.
  unfold tick. animate. unfold revealLines. rewrite scheduleLines_queue. animate.
  unfold revealing, revealed. cbn [firstn skipn map app]. rewrite Nat.sub_0_r.
  f_equal.
  - destruct (String.length s); lia.
  - f_equal. destruct (String.length s); lia.
Qed.

Lemma earliest_lt (q : list (Z * task)) :
  q <> [] -> (earliest q < length q)%nat.
Proof.
  induction q as [|[d t] r IH]; intros N; [contradiction|].
  simpl. destruct r as [|x r']; [lia|].
  destruct (d <=? _); [lia|].
  assert (earliest (x :: r') < length (x :: r'))%nat by (apply IH; discriminate).
  simpl in *. lia.
Qed.

Lemma earliest_head (d : Z) (t : task) (r : list (Z * task)) :
  Forall (fun y => d <= fst y) r -> earliest ((d, t) :: r) = O.
Proof.
  intros F. simpl. destruct r as [|x r']; [reflexivity|].
  assert (L : (earliest (x :: r') < length (x :: r'))%nat)
    by (apply earliest_lt; discriminate).
  rewrite Forall_forall in F.
  specialize (F (nth (earliest (x :: r')) (x :: r') (0, CallType))
                (nth_In _ _ L)).
  apply Z.leb_le in F. now rewrite F.
Qed.

Lemma revealQueue_later (t : Z) (j n : nat) :
  Forall (fun y => t + Z.of_nat j * 500 <= fst y) (revealQueue t (S j) n).
Proof.
  unfold revealQueue. rewrite Forall_forall. intros y H.
  apply in_map_iff in H as [i [<- I]]. apply in_seq in I. simpl. lia.
Qed.

Lemma updateAt_revealed (j : nat) (lines : list (list string)) :
  (j < length lines)%nat ->
  updateAt j (remove "hidden") (revealed j lines) = revealed (S j) lines.
Proof.
  unfold revealed. revert j. induction lines as [|x r IH]; intros j L.
  - simpl in L. lia.
  - destruct j as [|j]; [reflexivity|].
    simpl in *. f_equal. apply IH. lia.
Qed.

Lemma tick_revealing (s shown : string) (lines : list (list string)) (t : Z)
    (j : nat) (text : option string) :
  (j < length lines)%nat ->
  tick text (revealing s shown lines t j) = revealing s shown lines t (S j).
Proof.
  intros L.
  assert (Q : revealQueue t j (length lines - j)
              = (t + Z.of_nat j * 500, CallRevealLine j)
                  :: revealQueue t (S j) (length lines - S j)).
  { replace (length lines - j)%nat with (S (length lines - S j)) by lia.
    reflexivity. }
  unfold tick, revealing. cbn [pending]. rewrite Q.
  rewrite (earliest_head _ _ _ (revealQueue_later t j _)).
  cbn [nth_error Timers.removeNth runTask]. unfold revealLine.
  cbn [index textContent outputLines now pending].
  rewrite updateAt_revealed by exact L.
  f_equal. destruct j; lia.
Qed.

Lemma iter_revealing (s shown : string) (lines : list (list string)) (t : Z)
    (j : nat) (text : option string) :
  (j <= length lines)%nat ->
  Nat.iter j (tick text) (revealing s shown lines t 0)
  = revealing s shown lines t j.
Proof.
  induction j as [|j IH]; intros L; [reflexivity|].
  change (Nat.iter (S j) (tick text) (revealing s shown lines t 0))
    with (tick text (Nat.iter j (tick text) (revealing s shown lines t 0))).
  rewrite IH by lia. apply tick_revealing. lia.
Qed.

Lemma iter_plus {A : Type} (f : A -> A) (a b : nat) (x : A) :
  Nat.iter (a + b) f x = Nat.iter a f (Nat.iter b f x).
Proof. induction a as [|a IH]; simpl; [reflexivity | now rewrite IH]. Qed.

Lemma iter_to_revealing (s shown : string) (lines : list (list string)) (j : nat) :
  (j <= length lines)%nat ->
  Nat.iter (j + 2 + String.length s) (tick (Some s))
           (initTypingAnimation (start shown lines))
  = revealing s shown lines (1200 + 100 * Z.of_nat (String.length s)) j.
Proof.
  intros L. rewrite iter_plus, iter_typed by lia.
  rewrite iter_plus. simpl Nat.iter at 2.
  rewrite tick_typed_all. now apply iter_revealing.
Qed.

(** X21. The greeting is typed one character per call of [type]: after [k]
    calls, for every [k] up to the length of the text, the element shows
    the first [k] characters.  Then the lines of the output are
    revealed one per timer, in document order, and after as many timers
    as the text has characters and the page has lines, and two more, no
    timer is left, the whole text is shown and no line is hidden.  When
    the element has no [data-text] the first call of [type] throws and
    nothing is ever typed or revealed. *)
Theorem typing_animation (s shown : string) (lines : list (list string))
    (k j : nat) :
  ((1 <= k <= String.length s)%nat ->
     textContent (Nat.iter k (tick (Some s)) (initTypingAnimation (start shown lines)))
     = substring 0 k s
     /\ outputLines (Nat.iter k (tick (Some s)) (initTypingAnimation (start shown lines)))
        = lines)
  /\ ((j < length lines)%nat ->
        outputLines (Nat.iter (S j + 2 + String.length s) (tick (Some s))
                              (initTypingAnimation (start shown lines)))
        = revealed (S j) lines)
  /\ pending (Nat.iter (length lines + 2 + String.length s) (tick (Some s))
                       (initTypingAnimation (start shown lines))) = []
  /\ outputLines (Nat.iter (length lines + 2 + String.length s) (tick (Some s))
                           (initTypingAnimation (start shown lines)))
     = map (remove "hidden") lines
  /\ (s <> ""%string ->
      textContent (Nat.iter (length lines + 2 + String.length s) (tick (Some s))
                            (initTypingAnimation (start shown lines))) = s)
  /\ pending (Nat.iter (S k) (tick None) (initTypingAnimation (start shown lines))) = []
  /\ textContent (Nat.iter (S k) (tick None) (initTypingAnimation (start shown lines)))
     = shown
  /\ outputLines (Nat.iter (S k) (tick None) (initTypingAnimation (start shown lines)))
     = lines.
Proof.
  assert (U : Nat.iter (S k) (tick None) (initTypingAnimation (start shown lines))
              = mkAnimation 0 shown lines 1000 []).
  { induction k as [|k IH]; [reflexivity|].
    change (Nat.iter (S (S k)) (tick None) (initTypingAnimation (start shown lines)))
      with (tick None (Nat.iter (S k) (tick None)
                         (initTypingAnimation (start shown lines)))).
    now rewrite IH. }
  rewrite U. clear U.
  split; [|split; [|split; [|split; [|split; [|repeat split]]]]].
  - intros [K1 K2]. rewrite iter_typed by exact K2.
    destruct k as [|k]; [lia|]. unfold typed. cbn [textContent outputLines].
    split; reflexivity.
  - intros J. rewrite iter_to_revealing by lia.
    unfold revealing. cbn [outputLines]. reflexivity.
  - rewrite iter_to_revealing by lia. unfold revealing. cbn [pending].
    now rewrite Nat.sub_diag.
  - rewrite iter_to_revealing by lia. unfold revealing. cbn [outputLines].
    unfold revealed. now rewrite firstn_all, skipn_all, app_nil_r.
  - intros N. rewrite iter_to_revealing by lia.
    unfold revealing. cbn [textContent].
    destruct s as [|c r]; [contradiction|].
    exact (substring_all (String c r)).
Qed.

End TypingAnimation.
